(** * mcp-test-kit: the test client's connection lifecycle

    A shallow embedding of [src/client/MCPTestClient.ts] and of the parts of
    [src/types/index.ts] it uses, followed by the properties of the
    connection lifecycle (connect / disconnect / guarded remote calls) and of
    the environment clean-up performed before the server is spawned. The
    mock server and the matchers are embedded after the client, each in a
    module of its own, and their properties follow those of the client.

    Conventions.
    - A JavaScript object used as a dictionary ([Record<string, V>]) is a
      [gmap string V]; a property whose value is [undefined] is a key bound
      to [None].
    - An optional field ([x?: T]) is an [option T]; [None] is [undefined].
    - An [async] method is a computation in the monad [M]: it threads the
      client object and the outside world, and it either resolves with a
      value or rejects with a thrown value.
    - What the outside world answers (whether the spawned child has its
      stdio streams, whether the protocol client resolves or rejects a
      request, and with what) is not decided by this code: every method
      takes that answer as an argument. *)

From Stdlib Require Import ZArith Floats.
From stdpp Require Import gmap strings list fin_maps.

Local Open Scope string_scope.
Local Open Scope list_scope.

(** ** Environment dictionaries *)

Module Env.

(** [cleaned[key] = value], line 26, on the object that [{}] made and for a
    string [value]: an own property is written, except under the key
    ['__proto__'], where the assignment runs the setter inherited from
    [Object.prototype]; that setter ignores a string, so nothing is
    written. *)
Definition set_property (key value : string) (cleaned : gmap string string)
  : gmap string string :=
  if decide (key = "__proto__") then cleaned else <[key := value]> cleaned.

(** [cleanEnv], lines 22-30: walk over [Object.entries(env)] and assign the
    entries whose value is not [undefined] to a fresh object. *)
Definition cleanEnv (env : gmap string (option string)) : gmap string string :=
  map_fold
    (fun key value cleaned =>
       match value with
       | Some v => set_property key v cleaned
       | None => cleaned
       end)
    ∅ env.

(** The object literal [{ ...a, ...b }]: the own properties of [a], then
    those of [b] written over them. A property of [b] whose value is
    [undefined] is still an own property, so it is written too; and a
    spread defines its properties, setters aside, so an own ['__proto__']
    is copied like any other key. *)
Definition spread (a b : gmap string (option string)) : gmap string (option string) :=
  b ∪ a.

(** Lines 77-80: [cleanEnv({ ...process.env, ...this.config.env })]. *)
Definition processEnv (ambient configured : gmap string (option string))
  : gmap string string :=
  cleanEnv (spread ambient configured).

End Env.

(** ** Data passed through from the server ([src/types/index.ts]) *)

Unset Elimination Schemes.

(** Values of type [unknown] and [Record<string, unknown>]. *)
Inductive Json : Type :=
| JNull
| JBool (b : bool)
| JNumber (n : Z)
| JString (s : string)
| JArray (items : list Json)
| JObject (fields : list (string * Json)).
Set Elimination Schemes.

Record InputSchema := {
  schema_properties : option (list (string * Json));
  schema_required : option (list string)
}.

Record MCPTool := {
  tool_name : string;
  tool_description : option string;
  inputSchema : InputSchema
}.

Record MCPResource := {
  resource_uri : string;
  resource_name : string;
  resource_description : option string;
  resource_mimeType : option string
}.

Record PromptArgument := {
  argument_name : string;
  argument_description : option string;
  argument_required : option bool
}.

Record MCPPrompt := {
  prompt_name : string;
  prompt_description : option string;
  prompt_arguments : option (list PromptArgument)
}.

Inductive ContentType := text | image | resource.

Record ContentItem := {
  content_type : ContentType;
  content_text : option string;
  content_data : option string;
  content_mimeType : option string
}.

Record MCPToolResult := {
  content : list ContentItem;
  isError : option bool
}.

Record MCPResourceContent := {
  uri : string;
  mimeType : option string;
  text_ : option string
}.

Record ServerInfo := { server_name : string; server_version : string }.

Record MCPInitializeResult := {
  protocolVersion : string;
  capabilities : list (string * Json);
  serverInfo : ServerInfo
}.

(** What the protocol client resolves with, as far as the test client looks
    into it: [response.tools], [response.resources], [response.contents]
    and [response.prompts] may each be missing. *)
Record ListToolsResponse := { tools : option (list MCPTool) }.
Record ListResourcesResponse := { resources : option (list MCPResource) }.
Record ReadResourceResponse := { contents : option (list MCPResourceContent) }.
Record ListPromptsResponse := { prompts : option (list MCPPrompt) }.

(** ** Configuration *)

Inductive TransportType := stdio | sse | http.

Definition transport_name (t : TransportType) : string :=
  match t with
  | stdio => "stdio"
  | sse => "sse"
  | http => "http"
  end.

(** [MCPTestClientConfig]. The interface types [env] as
    [Record<string, string>]; [cleanEnv] nevertheless accepts and filters
    [undefined] values, so the values are kept optional here. *)
Record MCPTestClientConfig := {
  cfg_command : string;
  cfg_args : option (list string);
  cfg_env : option (gmap string (option string));
  cfg_timeout : option float;
  cfg_transport : option TransportType;
  cfg_serverUrl : option string;
  cfg_debug : option bool
}.

(** [Required<MCPTestClientConfig>], the type of [this.config]. *)
Module Config.
Record t := {
  command : string;
  args : list string;
  env : gmap string (option string);
  timeout : float;
  transport : TransportType;
  serverUrl : string;
  debug : bool
}.
End Config.

(** The numbers that count as false in a condition: [0], [-0] and [NaN].
    A number is a double, and [0 == -0] while [NaN] equals nothing. *)
Definition falsy_number (n : float) : bool :=
  PrimFloat.eqb n 0%float || PrimFloat.is_nan n.

(** [x || d] where [x] is an optional number: [undefined] and the numbers
    that count as false are replaced. *)
Definition or_number (x : option float) (d : float) : float :=
  match x with
  | Some n => if falsy_number n then d else n
  | None => d
  end.

(** [x || d] where [x] is an optional string: [undefined] and the empty
    string are both falsy. *)
Definition or_string (x : option string) (d : string) : string :=
  match x with
  | Some "" => d
  | Some s => s
  | None => d
  end.

(** Lines 43-51. Arrays, objects and the transport names are truthy, so
    for them [x || d] only replaces [undefined]. *)
Definition resolve (config : MCPTestClientConfig) : Config.t :=
  {| Config.command := cfg_command config;
     Config.args := default [] (cfg_args config);
     Config.env := default ∅ (cfg_env config);
     Config.timeout := or_number (cfg_timeout config) 5000%float;
     Config.transport := default stdio (cfg_transport config);
     Config.serverUrl := or_string (cfg_serverUrl config) "";
     Config.debug := default false (cfg_debug config) |}.

#[global] Instance TransportType_eq_dec : EqDecision TransportType.
Proof. solve_decision. Defined.

(** ** Thrown values *)

(** What a [throw] or a rejected promise carries: an [Error] built by this
    code, or an error of the protocol passed on from the server. *)
Inductive Thrown :=
| Error (message : string)
| McpError (code : Z) (message : string) (data : option Json).

(** The outcome of a promise of the collaborating library. *)
Inductive Settled (A : Type) :=
| Resolved (value : A)
| Rejected (reason : Thrown).
Arguments Resolved {A} value.
Arguments Rejected {A} reason.

(** ** The outside world *)

(** Which of its stdio streams a freshly spawned child exposes. *)
Record Streams := { stdout : bool; stdin : bool; stderr : bool }.

(** A child created by [spawn]. [signalled] records that [kill()] was called
    on it; [error_listener] and [stderr_listener] that the handlers of
    lines 92-102 are attached. *)
Record ChildProcess := {
  child_command : string;
  child_args : list string;
  child_env : gmap string string;
  child_streams : Streams;
  error_listener : bool;
  stderr_listener : bool;
  signalled : bool
}.

(** The parameters handed to [new StdioClientTransport(...)]. *)
Record StdioClientTransport := {
  transport_command : string;
  transport_args : list string;
  transport_env : gmap string string
}.

Inductive Request :=
| ListToolsRequest
| CallToolRequest (name : string) (arguments : list (string * Json))
| ListResourcesRequest
| ReadResourceRequest (uri : string)
| ListPromptsRequest
| GetPromptRequest (name : string) (arguments : list (string * string)).

(** Calls made on the protocol client, in order. *)
Inductive ClientEvent :=
| ClientConnect (t : StdioClientTransport)
| ClientClose
| ClientRequest (r : Request).

Inductive ConsoleLine :=
| console_log (message : string)
| console_error (message : string) (detail : Thrown)
| console_error_data (message : string) (data : string).

(** Everything outside the client object that its methods read or change:
    [process.env], the children spawned so far (a child is named by its
    position in the list), the calls made on the protocol client, and the
    console. *)
Record World := {
  process_env : gmap string (option string);
  children : list ChildProcess;
  wire : list ClientEvent;
  console : list ConsoleLine
}.

Definition boot (ambient : gmap string (option string)) : World :=
  {| process_env := ambient; children := []; wire := []; console := [] |}.

(** A child counts as live from its spawn until it is sent a signal. *)
Definition live (w : World) : list ChildProcess :=
  filter (fun c => signalled c = false) (children w).

(** ** The client object *)

Record Client := { client_name : string; client_version : string }.

Record MCPTestClient := {
  client : Client;
  transport : option StdioClientTransport;
  process : option nat;
  config : Config.t;
  initialized : bool
}.

(** Lines 42-62. *)
Definition new (config : MCPTestClientConfig) : MCPTestClient :=
  {| client := {| client_name := "mcp-test-kit"; client_version := "0.1.0" |};
     transport := None;
     process := None;
     config := resolve config;
     initialized := false |}.

Definition with_process (p : option nat) (self : MCPTestClient) : MCPTestClient :=
  {| client := client self; transport := transport self; process := p;
     config := config self; initialized := initialized self |}.

Definition with_transport (t : option StdioClientTransport) (self : MCPTestClient)
  : MCPTestClient :=
  {| client := client self; transport := t; process := process self;
     config := config self; initialized := initialized self |}.

Definition with_initialized (b : bool) (self : MCPTestClient) : MCPTestClient :=
  {| client := client self; transport := transport self; process := process self;
     config := config self; initialized := b |}.

(** ** Asynchronous methods as state-and-exception computations *)

Definition State : Type := MCPTestClient * World.

Definition M (A : Type) : Type := State -> (Thrown + A) * State.

#[global] Instance M_ret : MRet M := fun A (a : A) st => (inr a, st).

#[global] Instance M_bind : MBind M := fun A B (k : A -> M B) (m : M A) st =>
  match m st with
  | (inr a, st') => k a st'
  | (inl e, st') => (inl e, st')
  end.

Definition throw {A} (e : Thrown) : M A := fun st => (inl e, st).

(** [try { m } catch (error) { h error }]. *)
Definition try_catch {A} (m : M A) (h : Thrown -> M A) : M A := fun st =>
  match m st with
  | (inr a, st') => (inr a, st')
  | (inl e, st') => h e st'
  end.

Definition this : M MCPTestClient := fun st => (inr (fst st), st).

Definition assign (f : MCPTestClient -> MCPTestClient) : M unit := fun st =>
  (inr tt, (f (fst st), snd st)).

Definition the_world : M World := fun st => (inr (snd st), st).

Definition effect (f : World -> World) : M unit := fun st =>
  (inr tt, (fst st, f (snd st))).

Definition when (b : bool) (m : M unit) : M unit := if b then m else mret tt.

(** [await p] for a promise [p] of the collaborating library. *)
Definition await {A} (p : Settled A) : M A :=
  match p with
  | Resolved a => mret a
  | Rejected e => throw e
  end.

(** ** Primitives of the collaborators *)

Definition with_children (cs : list ChildProcess) (w : World) : World :=
  {| process_env := process_env w; children := cs; wire := wire w; console := console w |}.

Definition with_wire (evs : list ClientEvent) (w : World) : World :=
  {| process_env := process_env w; children := children w; wire := evs; console := console w |}.

Definition with_console (ls : list ConsoleLine) (w : World) : World :=
  {| process_env := process_env w; children := children w; wire := wire w; console := ls |}.

Definition write (line : ConsoleLine) : M unit :=
  effect (fun w => with_console (console w ++ [line]) w).

(** [spawn(command, args, { env })] of [child_process]: a new child, whose
    streams are what the operating system granted; the handle is returned. *)
Definition spawn (command : string) (args : list string) (env : gmap string string)
  (streams : Streams) : M nat := fun st =>
  let w := snd st in
  let child := {| child_command := command; child_args := args; child_env := env;
                  child_streams := streams; error_listener := false;
                  stderr_listener := false; signalled := false |} in
  (inr (length (children w)), (fst st, with_children (children w ++ [child]) w)).

Definition mark_signalled (c : ChildProcess) : ChildProcess :=
  {| child_command := child_command c; child_args := child_args c;
     child_env := child_env c; child_streams := child_streams c;
     error_listener := error_listener c; stderr_listener := stderr_listener c;
     signalled := true |}.

Definition listen_error (c : ChildProcess) : ChildProcess :=
  {| child_command := child_command c; child_args := child_args c;
     child_env := child_env c; child_streams := child_streams c;
     error_listener := true; stderr_listener := stderr_listener c;
     signalled := signalled c |}.

(** [child.stderr?.on('data', ...)]: nothing happens without a stderr. *)
Definition listen_stderr (c : ChildProcess) : ChildProcess :=
  {| child_command := child_command c; child_args := child_args c;
     child_env := child_env c; child_streams := child_streams c;
     error_listener := error_listener c;
     stderr_listener := stderr (child_streams c) || stderr_listener c;
     signalled := signalled c |}.

Definition on_child (f : ChildProcess -> ChildProcess) (child : nat) : M unit :=
  effect (fun w => with_children (alter f child (children w)) w).

(** [child.kill()]: sends the default signal and returns at once. *)
Definition kill (child : nat) : M unit := on_child mark_signalled child.

Definition called (ev : ClientEvent) : M unit :=
  effect (fun w => with_wire (wire w ++ [ev]) w).

(** [client.connect(transport)], [client.close()] and the request methods
    of the protocol client: the call is made, and its promise settles the
    way the library and the server decide. *)
Definition client_connect (t : StdioClientTransport) (handshake : Settled unit) : M unit :=
  called (ClientConnect t) ;; await handshake.

Definition client_close (closing : Settled unit) : M unit :=
  called ClientClose ;; await closing.

Definition client_request {A} (r : Request) (reply : Settled A) : M A :=
  called (ClientRequest r) ;; await reply.

(** ** Methods of [MCPTestClient] *)

(** Lines 67-118. *)
Definition connect (streams : Streams) (handshake : Settled unit) : M unit :=
  self ← this;
  if initialized self then throw (Error "Client is already connected") else
  if decide (Config.transport (config self) ≠ stdio) then
    throw (Error ("Transport type '" +:+ transport_name (Config.transport (config self))
                  +:+ "' not yet implemented. Only 'stdio' is currently supported."))
  else
  w ← the_world;
  let processEnv := Env.cleanEnv (Env.spread (process_env w) (Config.env (config self))) in
  child ← spawn (Config.command (config self)) (Config.args (config self)) processEnv streams;
  assign (with_process (Some child)) ;;
  if negb (stdout streams) || negb (stdin streams) then
    throw (Error "Failed to create process stdio streams")
  else
  on_child listen_error child ;;
  on_child listen_stderr child ;;
  let t := {| transport_command := Config.command (config self);
              transport_args := Config.args (config self);
              transport_env := processEnv |} in
  assign (with_transport (Some t)) ;;
  client_connect t handshake ;;
  assign (with_initialized true) ;;
  when (Config.debug (config self)) (write (console_log "MCP Test Client connected successfully")).

(** Lines 123-147. *)
Definition disconnect (closing : Settled unit) : M unit :=
  self ← this;
  if negb (initialized self) then mret tt else
  try_catch (client_close closing)
    (fun error =>
       when (Config.debug (config self)) (write (console_error "Error closing client:" error))) ;;
  self ← this;
  match process self with
  | Some child => kill child ;; assign (with_process None)
  | None => mret tt
  end ;;
  assign (with_transport None) ;;
  assign (with_initialized false) ;;
  when (Config.debug (config self)) (write (console_log "MCP Test Client disconnected")).

(** Lines 152-156. *)
Definition ensureConnected : M unit :=
  self ← this;
  if negb (initialized self) then
    throw (Error "Client is not connected. Call connect() first.")
  else mret tt.

(** Lines 161-165. *)
Definition listTools (reply : Settled ListToolsResponse) : M (list MCPTool) :=
  ensureConnected ;;
  response ← client_request ListToolsRequest reply;
  mret (default [] (tools response)).

(** Lines 170-174; [args] defaults to the empty object. *)
Definition callTool (name : string) (args : option (list (string * Json)))
  (reply : Settled MCPToolResult) : M MCPToolResult :=
  ensureConnected ;;
  response ← client_request (CallToolRequest name (default [] args)) reply;
  mret response.

(** Lines 179-183. *)
Definition listResources (reply : Settled ListResourcesResponse) : M (list MCPResource) :=
  ensureConnected ;;
  response ← client_request ListResourcesRequest reply;
  mret (default [] (resources response)).

(** Lines 188-192: [response.contents?.[0]]. The cast to
    [MCPResourceContent] does nothing at run time, so the value may be
    [undefined]. *)
Definition readResource (uri : string) (reply : Settled ReadResourceResponse)
  : M (option MCPResourceContent) :=
  ensureConnected ;;
  response ← client_request (ReadResourceRequest uri) reply;
  mret (contents ← contents response; contents !! 0%nat).

(** Lines 197-201. *)
Definition listPrompts (reply : Settled ListPromptsResponse) : M (list MCPPrompt) :=
  ensureConnected ;;
  response ← client_request ListPromptsRequest reply;
  mret (default [] (prompts response)).

(** Lines 206-210; [args] defaults to the empty object. *)
Definition getPrompt (name : string) (args : option (list (string * string)))
  (reply : Settled Json) : M Json :=
  ensureConnected ;;
  response ← client_request (GetPromptRequest name (default [] args)) reply;
  mret response.

(** Lines 215-228. *)
Definition getServerInfo : M MCPInitializeResult :=
  ensureConnected ;;
  mret {| protocolVersion := "2024-11-05";
          capabilities := [];
          serverInfo := {| server_name := "unknown"; server_version := "unknown" |} |}.

(** Lines 236-240. *)
Definition createMCPTestClient (config : MCPTestClientConfig) (ambient : gmap string (option string))
  (streams : Streams) (handshake : Settled unit) : (Thrown + MCPTestClient) * State :=
  (connect streams handshake ;; this) (new config, boot ambient).

(** The listeners installed by [connect] (lines 92-102), run when the
    child emits ['error'] or writes to its stderr. *)
Definition process_error (child : nat) (error : Thrown) : M unit :=
  self ← this;
  w ← the_world;
  match children w !! child with
  | Some c =>
      when (error_listener c && Config.debug (config self))
        (write (console_error "MCP Server process error:" error))
  | None => mret tt
  end.

Definition stderr_data (child : nat) (data : string) : M unit :=
  self ← this;
  w ← the_world;
  match children w !! child with
  | Some c =>
      when (stderr_listener c && Config.debug (config self))
        (write (console_error_data "MCP Server stderr:" data))
  | None => mret tt
  end.

(** ** Histories of a client *)

(** One thing that happens to a client: a method is called (together with
    what the outside world answers), or a child raises an event. *)
Inductive Call :=
| Connect (streams : Streams) (handshake : Settled unit)
| Disconnect (closing : Settled unit)
| ListTools (reply : Settled ListToolsResponse)
| CallTool (name : string) (args : option (list (string * Json))) (reply : Settled MCPToolResult)
| ListResources (reply : Settled ListResourcesResponse)
| ReadResource (uri : string) (reply : Settled ReadResourceResponse)
| ListPrompts (reply : Settled ListPromptsResponse)
| GetPrompt (name : string) (args : option (list (string * string))) (reply : Settled Json)
| GetServerInfo
| ProcessError (child : nat) (error : Thrown)
| StderrData (child : nat) (data : string).

(** [connect] and [disconnect], as opposed to remote calls and events. *)
Definition is_lifecycle (c : Call) : bool :=
  match c with
  | Connect _ _ | Disconnect _ => true
  | _ => false
  end.

(** The state a call leaves behind, whether it resolved or rejected. *)
Definition exec (c : Call) (st : State) : State :=
  match c with
  | Connect streams handshake => snd (connect streams handshake st)
  | Disconnect closing => snd (disconnect closing st)
  | ListTools reply => snd (listTools reply st)
  | CallTool name args reply => snd (callTool name args reply st)
  | ListResources reply => snd (listResources reply st)
  | ReadResource uri reply => snd (readResource uri reply st)
  | ListPrompts reply => snd (listPrompts reply st)
  | GetPrompt name args reply => snd (getPrompt name args reply st)
  | GetServerInfo => snd (getServerInfo st)
  | ProcessError child error => snd (process_error child error st)
  | StderrData child data => snd (stderr_data child data st)
  end.

Definition run (calls : list Call) (st : State) : State :=
  foldl (fun st c => exec c st) st calls.

(** The states a client and its world can be in: freshly constructed in
    some environment, then after any history of calls, each awaited before
    the next. *)
Inductive reachable : State -> Prop :=
| reachable_new (config : MCPTestClientConfig) (ambient : gmap string (option string)) :
    reachable (new config, boot ambient)
| reachable_exec (c : Call) (st : State) :
    reachable st -> reachable (exec c st).

(** The names the specification gives to the errors this code throws. *)
Definition AlreadyConnectedError : Thrown := Error "Client is already connected".

Definition ConfigurationError (t : TransportType) : Thrown :=
  Error ("Transport type '" +:+ transport_name t
         +:+ "' not yet implemented. Only 'stdio' is currently supported.").

Definition LaunchError : Thrown := Error "Failed to create process stdio streams".

Definition NotConnectedError : Thrown :=
  Error "Client is not connected. Call connect() first.".

(** Handles are well formed when the process handle names a spawned child
    and a connected client holds both its handles. *)
Definition handles_ok (st : State) : Prop :=
  (forall child, process (fst st) = Some child -> (child < length (children (snd st)))%nat) /\
  (initialized (fst st) = true ->
   is_Some (process (fst st)) /\ is_Some (transport (fst st))).

(** [later] is a later record of the child [earlier]: what it was spawned
    with is the same, and a signal once sent stays sent. *)
Definition same_child (earlier later : ChildProcess) : Prop :=
  child_command later = child_command earlier /\
  child_args later = child_args earlier /\
  child_env later = child_env earlier /\
  child_streams later = child_streams earlier /\
  (signalled earlier = true -> signalled later = true).

(** While the client is connected, its process handle names a child that
    has not been signalled and was spawned from the configured command and
    arguments, and its transport carries that child's command, arguments
    and environment. *)
Definition connection_ok (st : State) : Prop :=
  initialized (fst st) = true ->
  exists pid child t,
    process (fst st) = Some pid /\
    children (snd st) !! pid = Some child /\
    signalled child = false /\
    transport (fst st) = Some t /\
    transport_command t = child_command child /\
    transport_args t = child_args child /\
    transport_env t = child_env child /\
    child_command child = Config.command (config (fst st)) /\
    child_args child = Config.args (config (fst st)).

(** The protocol client has heard nothing yet and the client is not
    connected, or the first thing it heard was a [connect]. *)
Definition wire_ok (st : State) : Prop :=
  match wire (snd st) with
  | [] => initialized (fst st) = false
  | first :: _ => exists t, first = ClientConnect t
  end.

(** ** Sample data *)

Definition all_streams : Streams := {| stdout := true; stdin := true; stderr := true |}.

Definition no_stdin : Streams := {| stdout := true; stdin := false; stderr := true |}.

Definition node_server : MCPTestClientConfig :=
  {| cfg_command := "node"; cfg_args := Some ["dist/server.js"]; cfg_env := None;
     cfg_timeout := None; cfg_transport := None; cfg_serverUrl := None;
     cfg_debug := None |}.

Definition sse_server : MCPTestClientConfig :=
  {| cfg_command := "node"; cfg_args := Some ["dist/server.js"]; cfg_env := None;
     cfg_timeout := None; cfg_transport := Some sse;
     cfg_serverUrl := Some "http://localhost:3000"; cfg_debug := Some true |}.

Definition handshake_failure : Thrown := McpError (-32000) "Connection closed" None.

Definition fresh : State := (new node_server, boot ∅).

Definition shell_env : gmap string (option string) :=
  {[ "PATH" := Some "/usr/bin"; "HOME" := Some "/root"; "DEBUG" := Some "1" ]}.

Definition overriding_server : MCPTestClientConfig :=
  {| cfg_command := "node"; cfg_args := Some ["dist/server.js"];
     cfg_env := Some {[ "PATH" := Some "/opt/bin"; "DEBUG" := None; "TOKEN" := Some "t0" ]};
     cfg_timeout := Some 0%float; cfg_transport := Some stdio; cfg_serverUrl := None;
     cfg_debug := Some true |}.

Definition proto_server : MCPTestClientConfig :=
  {| cfg_command := "node"; cfg_args := Some ["dist/server.js"];
     cfg_env := Some {[ "__proto__" := Some "cfg"; "TOKEN" := Some "t0" ]};
     cfg_timeout := None; cfg_transport := None; cfg_serverUrl := None;
     cfg_debug := None |}.

Definition readme : MCPResourceContent :=
  {| uri := "file:///README.md"; mimeType := Some "text/markdown"; text_ := Some "# Title" |}.

Definition license : MCPResourceContent :=
  {| uri := "file:///LICENSE"; mimeType := None; text_ := Some "MIT" |}.

Definition connected : State := exec (Connect all_streams (Resolved tt)) fresh.

(** * The mock server *)

(** A shallow embedding of the mock server module ([mockTool],
    [mockResource], class [MockMCPServer], [createMockMCPServer]). A
    JavaScript [Map] keeps its keys in insertion order and [set] on a key
    already present replaces the value where it stands, so the two
    registries are association lists with that [set]. A handler is user
    code: it is a function from what it is called with to what awaiting it
    gives, a result or a thrown value. *)

Module Mock.

Definition MockToolHandler : Type := list (string * Json) -> Thrown + MCPToolResult.

Definition MockResourceHandler : Type := string -> Thrown + MCPResourceContent.

(** Interface [MockTool]. *)
Module Tool.
Record t := {
  name : string;
  description : option string;
  inputSchema : option InputSchema;
  handler : MockToolHandler
}.
End Tool.

(** Interface [MockResource]. *)
Module Resource.
Record t := {
  uri : string;
  name : string;
  description : option string;
  mimeType : option string;
  handler : MockResourceHandler
}.
End Resource.

(** Interface [MockServerConfig]. *)
Record MockServerConfig := {
  cfg_tools : option (list Tool.t);
  cfg_resources : option (list Resource.t);
  cfg_serverInfo : option ServerInfo
}.

(** The [options] argument of [mockTool] and of [mockResource]. *)
Record ToolOptions := {
  opt_description : option string;
  opt_inputSchema : option InputSchema
}.

Record ResourceOptions := {
  ropt_description : option string;
  ropt_mimeType : option string
}.

(** The schema [{ type: 'object', properties: {} }]. *)
Definition empty_schema : InputSchema :=
  {| schema_properties := Some []; schema_required := None |}.

(** [mockTool]: [options?.x] is [undefined] without options, and the
    schema, an object when given, is replaced only when it is missing. *)
Definition mockTool (name : string) (handler : MockToolHandler)
  (options : option ToolOptions) : Tool.t :=
  {| Tool.name := name;
     Tool.description := options ≫= opt_description;
     Tool.inputSchema := Some (default empty_schema (options ≫= opt_inputSchema));
     Tool.handler := handler |}.

(** [mockResource]. *)
Definition mockResource (uri name : string) (handler : MockResourceHandler)
  (options : option ResourceOptions) : Resource.t :=
  {| Resource.uri := uri;
     Resource.name := name;
     Resource.description := options ≫= ropt_description;
     Resource.mimeType := options ≫= ropt_mimeType;
     Resource.handler := handler |}.

(** [Map.prototype.set] and [Map.prototype.get]. *)
Fixpoint map_set {V} (key : string) (value : V) (m : list (string * V)) : list (string * V) :=
  match m with
  | [] => [(key, value)]
  | (k, v) :: rest =>
      if decide (k = key) then (key, value) :: rest
      else (k, v) :: map_set key value rest
  end.

Fixpoint map_get {V} (key : string) (m : list (string * V)) : option V :=
  match m with
  | [] => None
  | (k, v) :: rest => if decide (k = key) then Some v else map_get key rest
  end.

(** A loop of [set]s, each value under its own key. *)
Definition write_all {V} (key_of : V -> string) (m : list (string * V)) (values : list V)
  : list (string * V) :=
  foldl (fun m value => map_set (key_of value) value m) m values.

(** Class [MockMCPServer]. *)
Record MockMCPServer := {
  tools : list (string * Tool.t);
  resources : list (string * Resource.t);
  serverInfo : ServerInfo
}.

(** [addTool] and [addResource]. *)
Definition addTool (tool : Tool.t) (self : MockMCPServer) : MockMCPServer :=
  {| tools := map_set (Tool.name tool) tool (tools self);
     resources := resources self;
     serverInfo := serverInfo self |}.

Definition addResource (res : Resource.t) (self : MockMCPServer) : MockMCPServer :=
  {| tools := tools self;
     resources := map_set (Resource.uri res) res (resources self);
     serverInfo := serverInfo self |}.

(** The constructor: the two loops write into empty maps. *)
Definition new (config : MockServerConfig) : MockMCPServer :=
  {| tools :=
       foldl (fun m tool => map_set (Tool.name tool) tool m) [] (default [] (cfg_tools config));
     resources :=
       foldl (fun m res => map_set (Resource.uri res) res m) []
         (default [] (cfg_resources config));
     serverInfo :=
       default {| server_name := "mock-server"; server_version := "1.0.0" |}
         (cfg_serverInfo config) |}.

(** [createMockMCPServer(config = {})]. *)
Definition createMockMCPServer (config : option MockServerConfig) : MockMCPServer :=
  new (default {| cfg_tools := None; cfg_resources := None; cfg_serverInfo := None |} config).

(** An element of what [getTools] returns: an [MCPTool], except that the
    non-null assertion [tool.inputSchema!] lets a missing schema through. *)
Record ListedTool := {
  listed_name : string;
  listed_description : option string;
  listed_inputSchema : option InputSchema
}.

(** [getTools] and [getResources]. *)
Definition getTools (self : MockMCPServer) : list ListedTool :=
  (fun tool => {| listed_name := Tool.name tool;
                  listed_description := Tool.description tool;
                  listed_inputSchema := Tool.inputSchema tool |})
  <$> (snd <$> tools self).

Definition getResources (self : MockMCPServer) : list MCPResource :=
  (fun res => {| resource_uri := Resource.uri res;
                      resource_name := Resource.name res;
                      resource_description := Resource.description res;
                      resource_mimeType := Resource.mimeType res |})
  <$> (snd <$> resources self).

(** [callTool] and [readResource]. *)
Definition callTool (name : string) (args : list (string * Json)) (self : MockMCPServer)
  : Thrown + MCPToolResult :=
  match map_get name (tools self) with
  | None => inl (Error ("Tool '" +:+ name +:+ "' not found"))
  | Some tool => Tool.handler tool args
  end.

Definition readResource (uri : string) (self : MockMCPServer)
  : Thrown + MCPResourceContent :=
  match map_get uri (resources self) with
  | None => inl (Error ("Resource '" +:+ uri +:+ "' not found"))
  | Some res => Resource.handler res uri
  end.

Definition getServerInfo (self : MockMCPServer) : ServerInfo := serverInfo self.

(** The server after a constructor call and a sequence of registrations. *)
Definition register (tools : list Tool.t) (resources : list Resource.t)
  (self : MockMCPServer) : MockMCPServer :=
  foldl (fun s res => addResource res s)
    (foldl (fun s tool => addTool tool s) self tools) resources.

(** Sample handlers and tools. *)
Definition sunny : MockToolHandler := fun _ =>
  inr {| content := [{| content_type := text; content_text := Some "sunny";
                        content_data := None; content_mimeType := None |}];
         isError := None |}.

Definition rainy : MockToolHandler := fun _ =>
  inr {| content := [{| content_type := text; content_text := Some "rainy";
                        content_data := None; content_mimeType := None |}];
         isError := None |}.

Definition failing : MockToolHandler := fun _ => inl (McpError (-32602) "Invalid params" None).

Definition weather : Tool.t := mockTool "get-weather" sunny None.

Definition unnamed : Tool.t := mockTool "  " failing None.

Definition forecast : Tool.t :=
  {| Tool.name := "forecast"; Tool.description := Some "Five days";
     Tool.inputSchema := None; Tool.handler := rainy |}.

Definition weather_config : MockServerConfig :=
  {| cfg_tools := Some [weather; unnamed]; cfg_resources := None; cfg_serverInfo := None |}.

(** The server built by the constructor and later registrations, and
    everything registered on it, in order. *)
Definition built (config : MockServerConfig) (tools : list Tool.t)
  (resources : list Resource.t) : MockMCPServer :=
  register tools resources (new config).

Definition all_tools (config : MockServerConfig) (tools : list Tool.t) : list Tool.t :=
  default [] (cfg_tools config) ++ tools.

Definition all_resources (config : MockServerConfig) (resources : list Resource.t)
  : list Resource.t :=
  default [] (cfg_resources config) ++ resources.

End Mock.

(** * The matchers *)

(** A shallow embedding of the matcher module ([toBeValidMCPTool],
    [toBeValidMCPResource], [toMatchMCPToolResponse], [toMatchMCPError],
    [toHaveMCPProtocolVersion]). A matcher is handed a value of type
    [unknown]; here that is a value of plain data, with [undefined] among
    them. A matcher answers with [pass] and a message thunk; the thunk is
    not modelled, and a failed answer records instead which [return] gave
    it. A string holds the UTF-8 bytes of the JavaScript string it stands
    for, an unpaired surrogate being written as the three bytes of its
    code point. *)

Module Matchers.

Unset Elimination Schemes.

(** Numbers are the integers, so there is no [NaN]. *)
Inductive JsValue : Type :=
| JsUndefined
| JsNull
| JsBool (b : bool)
| JsNumber (n : Z)
| JsString (s : string)
| JsArray (items : list JsValue)
| JsObject (fields : gmap string JsValue).
Set Elimination Schemes.

(** [typeof v]. *)
Definition typeof (v : JsValue) : string :=
  match v with
  | JsUndefined => "undefined"
  | JsNull => "object"
  | JsBool _ => "boolean"
  | JsNumber _ => "number"
  | JsString _ => "string"
  | JsArray _ => "object"
  | JsObject _ => "object"
  end.

(** Whether [v] counts as true in a condition. *)
Definition truthy (v : JsValue) : bool :=
  match v with
  | JsUndefined => false
  | JsNull => false
  | JsBool b => b
  | JsNumber n => negb (n =? 0)%Z
  | JsString s => negb (String.eqb s "")
  | JsArray _ => true
  | JsObject _ => true
  end.

(** [v.key] for a [v] that is neither [null] nor [undefined], and for the
    keys read by the matchers, none of which an array or a primitive has. *)
Definition get (v : JsValue) (key : string) : JsValue :=
  match v with
  | JsObject fields => default JsUndefined (fields !! key)
  | _ => JsUndefined
  end.

(** [a === b] where one side is a primitive. Two objects or two arrays are
    compared by identity, which is never asked for here. *)
Definition strict_eq (a b : JsValue) : bool :=
  match a, b with
  | JsUndefined, JsUndefined => true
  | JsNull, JsNull => true
  | JsBool x, JsBool y => Bool.eqb x y
  | JsNumber x, JsNumber y => (x =? y)%Z
  | JsString x, JsString y => String.eqb x y
  | _, _ => false
  end.

(** The white space that [trim] removes, by the UTF-8 bytes of its code
    points. One byte: tab, line feed, vertical tab, form feed, carriage
    return and space. *)
Definition white_space_1 (b1 : Ascii.ascii) : bool :=
  match Ascii.N_of_ascii b1 with
  | 9 | 10 | 11 | 12 | 13 | 32 => true
  | _ => false
  end%N.

(** Two bytes: U+00A0, the no-break space. *)
Definition white_space_2 (b1 b2 : Ascii.ascii) : bool :=
  ((Ascii.N_of_ascii b1 =? 0xC2) && (Ascii.N_of_ascii b2 =? 0xA0))%N.

(** Three bytes: U+1680, U+2000 to U+200A, U+2028, U+2029, U+202F, U+205F,
    U+3000 and U+FEFF. *)
Definition white_space_3 (b1 b2 b3 : Ascii.ascii) : bool :=
  let x := Ascii.N_of_ascii b1 in
  let y := Ascii.N_of_ascii b2 in
  let z := Ascii.N_of_ascii b3 in
  (((x =? 0xE1) && ((y =? 0x9A) && (z =? 0x80)))
   || ((x =? 0xE2) && ((y =? 0x80) && ((0x80 <=? z) && (z <=? 0x8A))))
   || ((x =? 0xE2) && ((y =? 0x80) && ((z =? 0xA8) || (z =? 0xA9) || (z =? 0xAF))))
   || ((x =? 0xE2) && ((y =? 0x81) && (z =? 0x9F)))
   || ((x =? 0xE3) && ((y =? 0x80) && (z =? 0x80)))
   || ((x =? 0xEF) && ((y =? 0xBB) && (z =? 0xBF))))%N.

(** [s.trimStart()]. *)
Fixpoint trimStart (s : string) : string :=
  match s with
  | "" => ""
  | String b1 rest1 =>
      if white_space_1 b1 then trimStart rest1 else
      match rest1 with
      | "" => s
      | String b2 rest2 =>
          if white_space_2 b1 b2 then trimStart rest2 else
          match rest2 with
          | "" => s
          | String b3 rest3 =>
              if white_space_3 b1 b2 b3 then trimStart rest3 else s
          end
      end
  end.

(** [s.trimEnd()]: [s] up to where only white space is left. *)
Fixpoint trimEnd (s : string) : string :=
  if String.eqb (trimStart s) "" then "" else
  match s with
  | "" => ""
  | String b rest => String b (trimEnd rest)
  end.

(** [s.trim()]. *)
Definition trim (s : string) : string := trimEnd (trimStart s).

(** The strings made of white space only. *)
Inductive blank : string -> Prop :=
| blank_empty : blank ""
| blank_1 b1 s : white_space_1 b1 = true -> blank s -> blank (String b1 s)
| blank_2 b1 b2 s :
    white_space_2 b1 b2 = true -> blank s -> blank (String b1 (String b2 s))
| blank_3 b1 b2 b3 s :
    white_space_3 b1 b2 b3 = true -> blank s ->
    blank (String b1 (String b2 (String b3 s))).

(** [!v || typeof v !== 'object']. *)
Definition not_an_object_value (v : JsValue) : bool :=
  negb (truthy v) || negb (String.eqb (typeof v) "object").

(** [typeof v !== 'string' || v.trim() === '']. *)
Definition not_a_filled_string (v : JsValue) : bool :=
  negb (String.eqb (typeof v) "string") ||
  match v with
  | JsString s => String.eqb (trim s) ""
  | _ => false
  end.

(** The [return] statements with [pass: false], by what they report. *)
Inductive Failure :=
| not_an_object
| name_not_filled
| inputSchema_not_an_object
| inputSchema_type_not_object
| uri_not_filled
| content_not_an_array
| content_empty
| content_item_type_invalid
| isError_differs
| content_length_differs
| code_differs
| message_differs
| message_not_matched
| protocolVersion_differs.

Inductive Result :=
| Pass
| Fail (why : Failure).

Definition pass (r : Result) : bool :=
  match r with
  | Pass => true
  | Fail _ => false
  end.

(** [toBeValidMCPTool], lines 41-76. *)
Definition toBeValidMCPTool (received : JsValue) : Result :=
  let tool := received in
  if not_an_object_value tool then Fail not_an_object else
  if not_a_filled_string (get tool "name") then Fail name_not_filled else
  if not_an_object_value (get tool "inputSchema") then Fail inputSchema_not_an_object else
  if negb (strict_eq (get (get tool "inputSchema") "type") (JsString "object"))
  then Fail inputSchema_type_not_object else
  Pass.

(** [toBeValidMCPResource], lines 81-109. *)
Definition toBeValidMCPResource (received : JsValue) : Result :=
  let resource := received in
  if not_an_object_value resource then Fail not_an_object else
  if not_a_filled_string (get resource "uri") then Fail uri_not_filled else
  if not_a_filled_string (get resource "name") then Fail name_not_filled else
  Pass.

(** A matcher either returns or throws the [TypeError] of reading a
    property of [null] or [undefined]. *)
Inductive Outcome :=
| Returns (r : Result)
| ThrowsTypeError.

(** [['text', 'image', 'resource'].includes(v)]. *)
Definition is_content_type (v : JsValue) : bool :=
  strict_eq v (JsString "text") || strict_eq v (JsString "image")
  || strict_eq v (JsString "resource").

(** [null] and [undefined], whose properties cannot be read. *)
Definition nullish (v : JsValue) : bool :=
  match v with
  | JsUndefined | JsNull => true
  | _ => false
  end.

(** The loop of lines 142-149; [None] when it runs to its end. *)
Fixpoint check_items (items : list JsValue) : option Outcome :=
  match items with
  | [] => None
  | item :: rest =>
      if nullish item then Some ThrowsTypeError else
      if negb (truthy (get item "type")) || negb (is_content_type (get item "type"))
      then Some (Returns (Fail content_item_type_invalid))
      else check_items rest
  end.

(** A content item the loop accepts: an object whose [type] is one of the
    three names. *)
Definition content_item (item : JsValue) : Prop :=
  exists fields type,
    item = JsObject fields /\
    fields !! "type" = Some (JsString type) /\
    type ∈ ["text"; "image"; "resource"].

(** The values that are objects to [typeof] and true in a condition:
    objects and arrays. *)
Definition object_like (v : JsValue) : Prop :=
  (exists fields, v = JsObject fields) \/ (exists items, v = JsArray items).

(** The [expected] argument of [toMatchMCPToolResponse], a
    [Partial<MCPToolResult>]. *)
Record ExpectedToolResult := {
  expected_isError : option bool;
  expected_content : option (list JsValue)
}.

(** [toMatchMCPToolResponse], lines 114-176. *)
Definition toMatchMCPToolResponse (received : JsValue) (expected : option ExpectedToolResult)
  : Outcome :=
  let result := received in
  if not_an_object_value result then Returns (Fail not_an_object) else
  match get result "content" with
  | JsArray items =>
      if (length items =? 0)%nat then Returns (Fail content_empty) else
      match check_items items with
      | Some stopped => stopped
      | None =>
          match expected with
          | None => Returns Pass
          | Some expected =>
              if match expected_isError expected with
                 | Some b => negb (strict_eq (get result "isError") (JsBool b))
                 | None => false
                 end
              then Returns (Fail isError_differs) else
              match expected_content expected with
              | Some content =>
                  if negb (length content =? length items)%nat
                  then Returns (Fail content_length_differs)
                  else Returns Pass
              | None => Returns Pass
              end
          end
      end
  | _ => Returns (Fail content_not_an_array)
  end.

(** What [expected.message] can be: a string, or a regular expression,
    which is the function its [test] method computes. *)
Inductive ExpectedMessage :=
| exactly (s : string)
| matching (test : JsValue -> bool).

(** The [expected] argument of [toMatchMCPError]. *)
Record ExpectedError := {
  expected_code : option Z;
  expected_message : option ExpectedMessage
}.

(** [toMatchMCPError], lines 181-225. *)
Definition toMatchMCPError (received : JsValue) (expected : ExpectedError) : Result :=
  let error := received in
  if not_an_object_value error then Fail not_an_object else
  if match expected_code expected with
     | Some code => negb (strict_eq (get error "code") (JsNumber code))
     | None => false
     end
  then Fail code_differs else
  match expected_message expected with
  | None => Pass
  | Some (exactly message) =>
      if negb (strict_eq (get error "message") (JsString message))
      then Fail message_differs else Pass
  | Some (matching test) =>
      if negb (test (if truthy (get error "message") then get error "message"
                     else JsString ""))
      then Fail message_not_matched else Pass
  end.

(** [toHaveMCPProtocolVersion], lines 230-254. *)
Definition toHaveMCPProtocolVersion (received : JsValue) (expectedVersion : string) : Result :=
  let obj := received in
  if not_an_object_value obj then Fail not_an_object else
  if negb (strict_eq (get obj "protocolVersion") (JsString expectedVersion))
  then Fail protocolVersion_differs else
  Pass.

(** ** Objects of this development as the matchers see them *)

Fixpoint of_json (j : Json) : JsValue :=
  match j with
  | JNull => JsNull
  | JBool b => JsBool b
  | JNumber n => JsNumber n
  | JString s => JsString s
  | JArray items => JsArray (of_json <$> items)
  | JObject fields =>
      JsObject
        (list_to_map
           (reverse ((fun kv : string * Json => (fst kv, of_json (snd kv))) <$> fields)))
  end.

Definition of_optional_string (s : option string) : JsValue :=
  match s with
  | Some s => JsString s
  | None => JsUndefined
  end.

(** An input schema: its [type] is always ['object']. *)
Definition of_schema (schema : InputSchema) : JsValue :=
  JsObject
    {[ "type" := JsString "object";
       "properties" :=
         match schema_properties schema with
         | Some properties => of_json (JObject properties)
         | None => JsUndefined
         end;
       "required" :=
         match schema_required schema with
         | Some required => JsArray (JsString <$> required)
         | None => JsUndefined
         end ]}.

(** An element of what the mock server's [getTools] returns. *)
Definition of_listed_tool (tool : Mock.ListedTool) : JsValue :=
  JsObject
    {[ "name" := JsString (Mock.listed_name tool);
       "description" := of_optional_string (Mock.listed_description tool);
       "inputSchema" :=
         match Mock.listed_inputSchema tool with
         | Some schema => of_schema schema
         | None => JsUndefined
         end ]}.

(** An [MCPResource]. *)
Definition of_resource (r : MCPResource) : JsValue :=
  JsObject
    {[ "uri" := JsString (resource_uri r);
       "name" := JsString (resource_name r);
       "description" := of_optional_string (resource_description r);
       "mimeType" := of_optional_string (resource_mimeType r) ]}.

(** A thrown value: an [Error] has a message, an error of the protocol a
    code, a message and maybe data. *)
Definition of_thrown (e : Thrown) : JsValue :=
  match e with
  | Error message => JsObject {[ "message" := JsString message ]}
  | McpError code message data =>
      JsObject
        {[ "code" := JsNumber code;
           "message" := JsString message;
           "data" := match data with Some d => of_json d | None => JsUndefined end ]}
  end.

(** U+2003, the em space. *)
Definition em_space : string :=
  String (Ascii.ascii_of_N 0xE2)
    (String (Ascii.ascii_of_N 0x80) (String (Ascii.ascii_of_N 0x83) "")).

End Matchers.

(** * Properties *)

(** ** The effective environment *)

Section EnvFacts.
Context (ambient configured : gmap string (option string)).

Lemma lookup_cleanEnv (env : gmap string (option string)) (k : string) :
  Env.cleanEnv env !! k = if decide (k = "__proto__") then None else env !! k ≫= id.
Proof.
  unfold Env.cleanEnv.
  apply (map_fold_weak_ind
           (fun (cleaned : gmap string string) (m : gmap string (option string)) =>
              cleaned !! k = if decide (k = "__proto__") then None else m !! k ≫= id)).
  - rewrite !lookup_empty. by case_decide.
  - intros i x m r Hfresh IH. unfold Env.set_property.
    destruct (decide (i = k)) as [->|Hne].
    + rewrite lookup_insert_eq. destruct x as [v|]; simpl.
      * case_decide; [exact IH|]. by rewrite lookup_insert_eq.
      * rewrite IH, Hfresh. by case_decide.
    + rewrite (lookup_insert_ne m) by done.
      destruct x as [v|]; [|done].
      destruct (decide (i = "__proto__")); [done|]. by rewrite lookup_insert_ne.
Qed.

Lemma lookup_spread (a b : gmap string (option string)) (k : string) :
  Env.spread a b !! k = match b !! k with Some x => Some x | None => a !! k end.
Proof.
  unfold Env.spread. rewrite lookup_union.
  by destruct (b !! k), (a !! k).
Qed.

Lemma lookup_processEnv (k : string) :
  Env.processEnv ambient configured !! k =
    if decide (k = "__proto__") then None else
    match configured !! k with
    | Some (Some v) => Some v
    | Some None => None
    | None => ambient !! k ≫= id
    end.
Proof.
  unfold Env.processEnv. rewrite lookup_cleanEnv, lookup_spread.
  case_decide; [done|]. by destruct (configured !! k) as [[v|]|].
Qed.

End EnvFacts.

(** ** Stepping through a method *)

Ltac step_method :=
  unfold connect, disconnect, ensureConnected, listTools, callTool, listResources,
    readResource, listPrompts, getPrompt, getServerInfo, process_error, stderr_data,
    client_connect, client_close, client_request, called, kill, on_child, spawn,
    write, when, await, try_catch, throw, this, assign, the_world, effect;
  unfold mbind, mret, M_bind, M_ret; cbn.

Ltac open_state st :=
  let self := fresh "self" in
  let w := fresh "w" in
  destruct st as [self w]; destruct self; cbn in *.

Lemma resolve_transport (config : MCPTestClientConfig) :
  Config.transport (resolve config) = default stdio (cfg_transport config).
Proof. reflexivity. Qed.

Lemma connect_when_initialized (st : State) streams handshake :
  initialized (fst st) = true ->
  connect streams handshake st = (inl (Error "Client is already connected"), st).
Proof. open_state st. intros ->. reflexivity. Qed.

Lemma connect_when_unsupported (st : State) streams handshake :
  initialized (fst st) = false ->
  Config.transport (config (fst st)) <> stdio ->
  connect streams handshake st = (inl (ConfigurationError (Config.transport (config (fst st)))), st).
Proof.
  open_state st. intros -> Hne. step_method.
  destruct (decide _) as [_|Hstdio]; [reflexivity | contradiction].
Qed.

Lemma disconnect_when_not_initialized (st : State) closing :
  initialized (fst st) = false -> disconnect closing st = (inr tt, st).
Proof. open_state st. intros ->. reflexivity. Qed.

Lemma disconnect_resolves (st : State) closing : fst (disconnect closing st) = inr tt.
Proof.
  open_state st.
  destruct initialized0; [|reflexivity].
  destruct closing as [[]|e], process0, config0 as [? ? ? ? ? ? []]; reflexivity.
Qed.

Lemma disconnect_clears (st : State) closing :
  let self' := fst (snd (disconnect closing st)) in
  initialized self' = false /\
  (initialized (fst st) = true -> process self' = None /\ transport self' = None).
Proof.
  open_state st.
  destruct initialized0; [|split; [reflexivity | discriminate]].
  destruct closing as [[]|e], process0, config0 as [? ? ? ? ? ? []]; cbn; auto.
Qed.

Lemma alter_last {A} (f : A -> A) (l : list A) (x : A) :
  alter f (length l) (l ++ [x]) = l ++ [f x].
Proof.
  induction l as [|y l IH]; [reflexivity|].
  cbn. f_equal. exact IH.
Qed.

(** Past its two guards, [connect] always spawns: the new child is the last
    one, it carries the cleaned environment, no signal has been sent to it,
    and its handle is stored, whatever happens next. *)
Lemma connect_spawns (st : State) streams handshake :
  initialized (fst st) = false ->
  Config.transport (config (fst st)) = stdio ->
  let out := connect streams handshake st in
  exists child,
    children (snd (snd out)) = children (snd st) ++ [child] /\
    child_command child = Config.command (config (fst st)) /\
    child_args child = Config.args (config (fst st)) /\
    child_env child = Env.processEnv (process_env (snd st)) (Config.env (config (fst st))) /\
    signalled child = false /\
    process (fst (snd out)) = Some (length (children (snd st))) /\
    initialized (fst (snd out)) =
      match fst out with inl _ => false | inr _ => true end /\
    (initialized (fst (snd out)) = true -> is_Some (transport (fst (snd out)))).
Proof.
  open_state st. intros -> Hstdio. step_method. rewrite Hstdio.
  destruct (decide (stdio <> stdio)) as [Hne|_]; [by destruct Hne|]. cbn.
  destruct streams as [[] [] err]; cbn;
    try (eexists; repeat split; (reflexivity || discriminate)).
  rewrite !alter_last.
  destruct handshake as [[]|e]; cbn;
    destruct (Config.debug config0); cbn;
    eexists; repeat split; (reflexivity || discriminate || eauto).
Qed.

Lemma connect_outcome (st : State) streams handshake :
  initialized (fst st) = false ->
  Config.transport (config (fst st)) = stdio ->
  fst (connect streams handshake st) =
    if negb (stdout streams) || negb (stdin streams) then inl LaunchError
    else match handshake with
         | Resolved _ => inr tt
         | Rejected e => inl e
         end.
Proof.
  open_state st. intros -> Hstdio. step_method. rewrite Hstdio.
  destruct (decide (stdio <> stdio)) as [Hne|_]; [by destruct Hne|]. cbn.
  destruct streams as [[] [] err]; cbn; try reflexivity.
  destruct handshake as [[]|e]; cbn; destruct (Config.debug config0); reflexivity.
Qed.

(** ** Well-formed handles along every history *)

(** Remote calls and child events leave the client object and the children
    alone. *)
Lemma exec_frame (c : Call) (st : State) :
  is_lifecycle c = false ->
  fst (exec c st) = fst st /\ children (snd (exec c st)) = children (snd st).
Proof.
  destruct c; try discriminate; intros _; open_state st; step_method;
    try (destruct initialized0; cbn; [|by split]; destruct reply; by split).
  - by destruct initialized0.
  - destruct (children w !! child); [|by split].
    by destruct (error_listener c && Config.debug config0).
  - destruct (children w !! child); [|by split].
    by destruct (stderr_listener c && Config.debug config0).
Qed.

Lemma disconnect_children (st : State) closing :
  length (children (snd (snd (disconnect closing st)))) = length (children (snd st)).
Proof.
  open_state st.
  destruct initialized0; [|reflexivity].
  destruct closing as [[]|e], process0, config0 as [? ? ? ? ? ? []]; step_method;
    rewrite ?length_alter; reflexivity.
Qed.

Lemma exec_handles_ok (c : Call) (st : State) :
  handles_ok st -> handles_ok (exec c st).
Proof.
  intros [Hproc Hinit].
  destruct (is_lifecycle c) eqn:Hc.
  - destruct c; try discriminate; cbn [exec].
    + (* connect *)
      destruct (initialized (fst st)) eqn:Hi.
      { rewrite connect_when_initialized by done. split; [done|]. auto. }
      destruct (decide (Config.transport (config (fst st)) = stdio)) as [Hs|Hs].
      2:{ rewrite connect_when_unsupported by done. split; [done|].
          cbn. rewrite Hi. discriminate. }
      destruct (connect_spawns st streams handshake Hi Hs)
        as (child & Hch & _ & _ & _ & _ & Hp & Hini & Htr).
      split.
      * intros pid. rewrite Hp, Hch, length_app. cbn. intros [= <-]. lia.
      * intros Htrue. split; [rewrite Hp; eauto | auto].
    + (* disconnect *)
      destruct (disconnect_clears st closing) as [Hfalse Hcleared].
      split.
      * intros pid Hpid. rewrite disconnect_children.
        destruct (initialized (fst st)) eqn:Hi.
        -- destruct (Hcleared eq_refl) as [Hnone _]. congruence.
        -- rewrite disconnect_when_not_initialized in Hpid by done. auto.
      * intros Htrue. congruence.
  - destruct (exec_frame c st Hc) as [Hself Hchildren].
    split; rewrite Hself, ?Hchildren; auto.
Qed.

Lemma reachable_handles_ok (st : State) : reachable st -> handles_ok st.
Proof.
  induction 1 as [cfg ambient|c st _ IH].
  - split; cbn; [discriminate|discriminate].
  - by apply exec_handles_ok.
Qed.

Lemma reachable_run (calls : list Call) (st : State) :
  reachable st -> reachable (run calls st).
Proof.
  revert st. induction calls as [|c calls IH]; intros st Hst; [exact Hst|].
  cbn. apply IH. by apply reachable_exec.
Qed.

(** A failed [connect] of a client that was not connected leaves it not
    connected. *)
Lemma failed_connect_not_initialized (st : State) streams handshake e :
  initialized (fst st) = false ->
  fst (connect streams handshake st) = inl e ->
  initialized (fst (snd (connect streams handshake st))) = false.
Proof.
  intros Hi Hfail.
  destruct (decide (Config.transport (config (fst st)) = stdio)) as [Hs|Hs].
  - destruct (connect_spawns st streams handshake Hi Hs)
      as (child & _ & _ & _ & _ & _ & _ & Hini & _).
    by rewrite Hini, Hfail.
  - by rewrite connect_when_unsupported.
Qed.

(** Nothing in a failed [connect] undoes the spawn: for every stdio
    configuration, the child spawned at line 83 is still unsignalled and
    its handle still stored when [connect] rejects. *)
Lemma failed_connect_keeps_child (st : State) streams handshake e :
  initialized (fst st) = false ->
  Config.transport (config (fst st)) = stdio ->
  fst (connect streams handshake st) = inl e ->
  let st' := snd (connect streams handshake st) in
  exists child,
    children (snd st') = children (snd st) ++ [child] /\
    signalled child = false /\
    process (fst st') = Some (length (children (snd st))) /\
    initialized (fst st') = false.
Proof.
  intros Hi Hs Hfail.
  destruct (connect_spawns st streams handshake Hi Hs)
    as (child & Hch & _ & _ & _ & Hsig & Hp & Hini & _).
  exists child. rewrite Hfail in Hini. auto.
Qed.

(** ** Failure of [connect] after the spawn *)

(** C1, evaluated on the code where the claim fails. The claim: when
    [connect] fails after the spawn, the child is not left running and
    [connect] has no lasting effect. Here the server is spawned with all
    its streams and the handshake is rejected: [connect] rejects with the
    handshake's error and the client is not marked connected, but the child
    has been sent no signal, its handle and the transport stay stored, and
    a later [disconnect] does not signal it either. *)
Example failed_handshake_leaves_child_running :
  let out := connect all_streams (Rejected handshake_failure) fresh in
  fst out = inl handshake_failure /\
  initialized (fst (snd out)) = false /\
  process (fst (snd out)) = Some 0%nat /\
  is_Some (transport (fst (snd out))) /\
  signalled <$> children (snd (snd out)) !! 0%nat = Some false /\
  length (live (snd (snd out))) = 1%nat /\
  fst (snd out) <> fst fresh /\
  live (snd (snd (disconnect (Resolved tt) (snd out)))) = live (snd (snd out)).
Proof.
  vm_compute. repeat split; eauto. discriminate.
Qed.

(** The same when the child comes back without a stdin stream. *)
Example missing_stream_leaves_child_running :
  let out := connect no_stdin (Resolved tt) fresh in
  fst out = inl LaunchError /\
  initialized (fst (snd out)) = false /\
  process (fst (snd out)) = Some 0%nat /\
  signalled <$> children (snd (snd out)) !! 0%nat = Some false.
Proof. vm_compute. repeat split. Qed.

(** ** One process per client *)

(** C2, evaluated on the code where the claim fails. The claim: at any
    moment a client owns at most one live process. After a [connect] whose
    handshake is rejected and a second [connect] that succeeds, the client
    is connected and two children it spawned are live; its process handle
    names the second one only. *)
Example retry_after_failed_connect_two_live :
  let st := run [Connect all_streams (Rejected handshake_failure);
                 Connect all_streams (Resolved tt)] fresh in
  reachable st /\
  initialized (fst st) = true /\
  process (fst st) = Some 1%nat /\
  signalled <$> children (snd st) = [false; false] /\
  length (live (snd st)) = 2%nat.
Proof.
  split; [apply reachable_run, reachable_new|].
  vm_compute. repeat split.
Qed.

(** A first [connect] that succeeds leaves exactly one live child. *)
Lemma first_connect_one_live (config : MCPTestClientConfig) ambient streams handshake :
  fst (connect streams handshake (new config, boot ambient)) = inr tt ->
  length (live (snd (snd (connect streams handshake (new config, boot ambient))))) = 1%nat.
Proof.
  intros Hok.
  destruct (decide (Config.transport (resolve config) = stdio)) as [Hs|Hs].
  - destruct (connect_spawns (new config, boot ambient) streams handshake eq_refl Hs)
      as (child & Hch & _ & _ & _ & Hsig & _).
    unfold live. rewrite Hch. cbn. rewrite decide_True by done. reflexivity.
  - rewrite connect_when_unsupported in Hok by done. discriminate.
Qed.

(** ** Disconnecting *)

(** C3. For every connected client that a history of calls can produce,
    [disconnect] resolves whether closing the protocol client resolves or
    rejects: the close is attempted, its error (if any) is only written to
    the console when [debug] is set, the child named by the process handle
    is sent a signal, both handles are cleared and the client is no longer
    marked connected. *)
Theorem disconnect_never_throws (st : State) (closing : Settled unit) :
  reachable st ->
  initialized (fst st) = true ->
  exists child,
    process (fst st) = Some child /\
    fst (disconnect closing st) = inr tt /\
    let st' := snd (disconnect closing st) in
    wire (snd st') = wire (snd st) ++ [ClientClose] /\
    console (snd st') =
      console (snd st) ++
      (if Config.debug (config (fst st)) then
         match closing with
         | Resolved _ => []
         | Rejected error => [console_error "Error closing client:" error]
         end ++ [console_log "MCP Test Client disconnected"]
       else []) /\
    signalled <$> children (snd st') !! child = Some true /\
    process (fst st') = None /\
    transport (fst st') = None /\
    initialized (fst st') = false.
Proof.
  intros Hreach Hinit.
  destruct (reachable_handles_ok st Hreach) as [Hbound Hheld].
  destruct (Hheld Hinit) as [[child Hchild] _].
  specialize (Hbound child Hchild).
  apply lookup_lt_is_Some_2 in Hbound as [c Hc].
  exists child. split; [exact Hchild|].
  split; [apply disconnect_resolves|].
  open_state st. subst.
  destruct closing as [[]|error], config0 as [? ? ? ? ? ? []]; step_method;
    rewrite ?list_lookup_alter_eq, ?Hc, <- ?app_assoc; cbn;
    repeat split; rewrite ?app_nil_r; reflexivity.
Qed.

Lemma disconnect_never_throws_witness :
  reachable connected /\
  initialized (fst connected) = true /\
  exists child,
    process (fst connected) = Some child /\
    fst (disconnect (Rejected handshake_failure) connected) = inr tt /\
    let st' := snd (disconnect (Rejected handshake_failure) connected) in
    wire (snd st') = wire (snd connected) ++ [ClientClose] /\
    console (snd st') =
      console (snd connected) ++
      (if Config.debug (config (fst connected)) then
         [console_error "Error closing client:" handshake_failure] ++
         [console_log "MCP Test Client disconnected"]
       else []) /\
    signalled <$> children (snd st') !! child = Some true /\
    process (fst st') = None /\
    transport (fst st') = None /\
    initialized (fst st') = false.
Proof.
  split; [apply reachable_exec, reachable_new|].
  split; [reflexivity|].
  apply (disconnect_never_throws connected (Rejected handshake_failure));
    [apply reachable_exec, reachable_new | reflexivity].
Defined.

(** C7. For every client that is not connected (its flag is unset, as it is
    after any [disconnect] and after a [connect] that failed on a client
    that was not connected), [disconnect] resolves and changes nothing, and
    so does any number of further calls to it. *)
Theorem disconnect_idempotent (st : State) (closing : Settled unit)
  (closings : list (Settled unit)) :
  (initialized (fst st) = false \/
   (exists st0 closing0, st = snd (disconnect closing0 st0)) \/
   (exists st0 streams handshake e,
      initialized (fst st0) = false /\
      connect streams handshake st0 = (inl e, st))) ->
  disconnect closing st = (inr tt, st) /\
  run (Disconnect <$> closings) st = st.
Proof.
  intros Hst.
  assert (initialized (fst st) = false) as Hflag.
  { destruct Hst as [H|[(st0 & closing0 & ->)|(st0 & streams & handshake & e & Hi & Hc)]].
    - exact H.
    - apply disconnect_clears.
    - replace st with (snd (connect streams handshake st0)) by (by rewrite Hc).
      apply (failed_connect_not_initialized _ _ _ e); [done | by rewrite Hc]. }
  split; [by apply disconnect_when_not_initialized|].
  induction closings as [|c cs IH]; [reflexivity|].
  cbn. by rewrite disconnect_when_not_initialized.
Qed.

Lemma disconnect_idempotent_witness :
  let st := snd (disconnect (Rejected handshake_failure) connected) in
  (initialized (fst st) = false \/
   (exists st0 closing0, st = snd (disconnect closing0 st0)) \/
   (exists st0 streams handshake e,
      initialized (fst st0) = false /\
      connect streams handshake st0 = (inl e, st))) /\
  disconnect (Resolved tt) st = (inr tt, st) /\
  run (Disconnect <$> [Resolved tt; Rejected handshake_failure; Resolved tt]) st = st.
Proof.
  cbv zeta.
  assert (exists st0 closing0,
             snd (disconnect (Rejected handshake_failure) connected)
             = snd (disconnect closing0 st0)) as Hafter
    by (exists connected, (Rejected handshake_failure); reflexivity).
  split; [right; left; exact Hafter|].
  apply (disconnect_idempotent _ (Resolved tt)
           [Resolved tt; Rejected handshake_failure; Resolved tt]).
  right; left; exact Hafter.
Defined.

(** ** The connection guard *)

(** C4. For every client that is not connected, each of the seven
    remote-call methods rejects with the error whose message is
    "Client is not connected. Call connect() first." and leaves the client
    and the world as they were; in particular no call reaches the protocol
    client. *)
Theorem remote_calls_need_connection (st : State) :
  initialized (fst st) = false ->
  let rejected := Error "Client is not connected. Call connect() first." in
  (forall reply, listTools reply st = (inl rejected, st)) /\
  (forall name args reply, callTool name args reply st = (inl rejected, st)) /\
  (forall reply, listResources reply st = (inl rejected, st)) /\
  (forall uri reply, readResource uri reply st = (inl rejected, st)) /\
  (forall reply, listPrompts reply st = (inl rejected, st)) /\
  (forall name args reply, getPrompt name args reply st = (inl rejected, st)) /\
  getServerInfo st = (inl rejected, st).
Proof.
  open_state st. intros ->. repeat split.
Qed.

Lemma remote_calls_need_connection_witness :
  let st := snd (disconnect (Resolved tt) connected) in
  initialized (fst fresh) = false /\
  initialized (fst st) = false /\
  listTools (Resolved {| tools := Some [] |}) fresh = (inl NotConnectedError, fresh) /\
  readResource "file:///README.md" (Resolved {| contents := Some [readme] |}) st
    = (inl NotConnectedError, st) /\
  getServerInfo st = (inl NotConnectedError, st).
Proof.
  cbv zeta.
  split; [reflexivity|]. split; [reflexivity|].
  split; [|split].
  - apply (remote_calls_need_connection fresh). reflexivity.
  - apply (remote_calls_need_connection (snd (disconnect (Resolved tt) connected))).
    reflexivity.
  - apply (remote_calls_need_connection (snd (disconnect (Resolved tt) connected))).
    reflexivity.
Defined.

(** C5. For every client that is not connected and whose configured
    transport is not stdio, [connect] rejects with the error naming that
    transport and leaves the client and the world as they were: no child is
    spawned and the protocol client is not called. *)
Theorem connect_rejects_other_transports (st : State) streams handshake :
  initialized (fst st) = false ->
  Config.transport (config (fst st)) <> stdio ->
  connect streams handshake st
    = (inl (ConfigurationError (Config.transport (config (fst st)))), st) /\
  children (snd (snd (connect streams handshake st))) = children (snd st).
Proof.
  intros Hi Hne. rewrite connect_when_unsupported by done. by split.
Qed.

Lemma connect_rejects_other_transports_witness :
  let st := (new sse_server, boot shell_env) in
  initialized (fst st) = false /\
  Config.transport (config (fst st)) <> stdio /\
  connect all_streams (Resolved tt) st
    = (inl (Error "Transport type 'sse' not yet implemented. Only 'stdio' is currently supported."),
       st) /\
  children (snd (snd (connect all_streams (Resolved tt) st))) = [].
Proof.
  cbv zeta.
  split; [reflexivity|]. split; [discriminate|].
  apply (connect_rejects_other_transports (new sse_server, boot shell_env)
           all_streams (Resolved tt)); [reflexivity | discriminate].
Defined.

(** C6. For every connected client, [connect] rejects with the error
    "Client is already connected" and leaves the client and the world as
    they were. *)
Theorem connect_twice_rejected (st : State) streams handshake :
  initialized (fst st) = true ->
  connect streams handshake st = (inl AlreadyConnectedError, st).
Proof. apply connect_when_initialized. Qed.

Lemma connect_twice_rejected_witness :
  fst (connect all_streams (Resolved tt) fresh) = inr tt /\
  initialized (fst connected) = true /\
  connect all_streams (Resolved tt) connected
    = (inl (Error "Client is already connected"), connected).
Proof.
  split; [reflexivity|]. split; [reflexivity|].
  apply (connect_twice_rejected connected all_streams (Resolved tt)). reflexivity.
Defined.

(** ** The environment of the spawned server *)

(** For every ambient environment and every configured environment, the
    child that [connect] spawns receives the cleaned merge of the two: the
    key ['__proto__'] is absent; of the other keys, one configured with a
    defined value has that value, one configured with [undefined] is
    absent, and any other has its ambient value, if that is defined. *)
Lemma spawned_environment (st : State) streams handshake :
  initialized (fst st) = false ->
  Config.transport (config (fst st)) = stdio ->
  exists child,
    children (snd (snd (connect streams handshake st))) = children (snd st) ++ [child] /\
    child_env child
      = Env.cleanEnv (Env.spread (process_env (snd st)) (Config.env (config (fst st)))) /\
    forall key : string,
      child_env child !! key =
        if decide (key = "__proto__") then None else
        match Config.env (config (fst st)) !! key with
        | Some (Some value) => Some value
        | Some None => None
        | None =>
            match process_env (snd st) !! key with
            | Some (Some value) => Some value
            | _ => None
            end
        end.
Proof.
  intros Hi Hs.
  destruct (connect_spawns st streams handshake Hi Hs)
    as (child & Hch & _ & _ & Henv & _).
  exists child. split; [exact Hch|]. split; [exact Henv|].
  intros key. rewrite Henv, lookup_processEnv.
  case_decide; [done|].
  destruct (Config.env (config (fst st)) !! key) as [[v|]|]; try reflexivity.
  by destruct (process_env (snd st) !! key) as [[v|]|].
Qed.

(** C8, evaluated on the code where the claim fails. The claim: every
    configured entry with a defined value is in the environment passed to
    the spawned process, over the ambient value for its key. Here the
    configured environment has the own entries ['__proto__'] and [TOKEN],
    both with defined values: the child that [connect] spawns, and the
    transport, receive [TOKEN] and the ambient entries but no entry
    ['__proto__'], although [cleanEnv] is meant to drop [undefined] values
    only. *)
Example proto_entry_not_passed_on :
  let st := (new proto_server, boot shell_env) in
  let out := connect all_streams (Resolved tt) st in
  Config.env (config (fst st)) !! "__proto__" = Some (Some "cfg") /\
  fst out = inr tt /\
  exists child,
    children (snd (snd out)) = [child] /\
    child_env child !! "__proto__" = None /\
    child_env child !! "TOKEN" = Some "t0" /\
    child_env child !! "PATH" = Some "/usr/bin" /\
    (transport_env <$> transport (fst (snd out))) = Some (child_env child).
Proof.
  cbv zeta. split; [reflexivity|]. split; [reflexivity|].
  eexists. split; [reflexivity|]. vm_compute. repeat split.
Qed.

(** The merge on a sample: PATH is overridden, DEBUG is removed by its
    [undefined] override, HOME is inherited and TOKEN is added. *)
Example processEnv_sample :
  let env := Env.processEnv shell_env (Config.env (resolve overriding_server)) in
  env !! "PATH" = Some "/opt/bin" /\
  env !! "DEBUG" = None /\
  env !! "HOME" = Some "/root" /\
  env !! "TOKEN" = Some "t0" /\
  size env = 3%nat.
Proof. vm_compute. repeat split. Qed.

(** ** Reading a resource *)

(** C9. For every connected client and every uri, when the protocol client
    resolves with a non-empty [contents] array, [readResource] makes that
    one request and resolves with the first element of the array, whatever
    follows it. *)
Theorem readResource_first (st : State) (uri : string)
  (first : MCPResourceContent) (others : list MCPResourceContent) :
  initialized (fst st) = true ->
  readResource uri (Resolved {| contents := Some (first :: others) |}) st
    = (inr (Some first),
       (fst st, with_wire (wire (snd st) ++ [ClientRequest (ReadResourceRequest uri)]) (snd st))).
Proof. open_state st. intros ->. reflexivity. Qed.

Lemma readResource_first_witness :
  initialized (fst connected) = true /\
  fst (readResource "file:///README.md"
         (Resolved {| contents := Some [readme; license] |}) connected)
    = inr (Some readme).
Proof.
  split; [reflexivity|].
  rewrite (readResource_first connected "file:///README.md" readme [license]
             eq_refl).
  reflexivity.
Defined.

(** C10. For every connected client and every uri, when the protocol
    client resolves with an empty [contents] array or with none at all,
    [readResource] resolves with [undefined]; it does not reject. *)
Theorem readResource_nothing (st : State) (uri : string) (response : ReadResourceResponse) :
  initialized (fst st) = true ->
  contents response = Some [] \/ contents response = None ->
  readResource uri (Resolved response) st
    = (inr None,
       (fst st, with_wire (wire (snd st) ++ [ClientRequest (ReadResourceRequest uri)]) (snd st))).
Proof.
  open_state st. destruct response as [cs]. cbn.
  intros -> [-> | ->]; reflexivity.
Qed.

Lemma readResource_nothing_witness :
  initialized (fst connected) = true /\
  fst (readResource "file:///README.md" (Resolved {| contents := Some [] |}) connected)
    = inr None /\
  fst (readResource "file:///README.md" (Resolved {| contents := None |}) connected)
    = inr None.
Proof.
  split; [reflexivity|]. split.
  - rewrite (readResource_nothing connected "file:///README.md" {| contents := Some [] |}
               eq_refl (or_introl eq_refl)).
    reflexivity.
  - rewrite (readResource_nothing connected "file:///README.md" {| contents := None |}
               eq_refl (or_intror eq_refl)).
    reflexivity.
Defined.

(** * Further properties of the client *)

(** ** A successful [connect] *)

(** What a successful [connect] leaves behind, in full. *)
Lemma connect_success_state (st : State) streams :
  initialized (fst st) = false ->
  Config.transport (config (fst st)) = stdio ->
  stdout streams = true ->
  stdin streams = true ->
  let env := Env.cleanEnv (Env.spread (process_env (snd st)) (Config.env (config (fst st)))) in
  let child :=
    {| child_command := Config.command (config (fst st));
       child_args := Config.args (config (fst st));
       child_env := env; child_streams := streams;
       error_listener := true; stderr_listener := stderr streams;
       signalled := false |} in
  let t :=
    {| transport_command := Config.command (config (fst st));
       transport_args := Config.args (config (fst st));
       transport_env := env |} in
  connect streams (Resolved tt) st =
    (inr tt,
     ({| client := client (fst st); transport := Some t;
         process := Some (length (children (snd st)));
         config := config (fst st); initialized := true |},
      {| process_env := process_env (snd st);
         children := children (snd st) ++ [child];
         wire := wire (snd st) ++ [ClientConnect t];
         console :=
           console (snd st) ++
           (if Config.debug (config (fst st))
            then [console_log "MCP Test Client connected successfully"] else []) |})).
Proof.
  open_state st. intros -> Hstdio Hout Hin. step_method. rewrite Hstdio.
  destruct (decide (stdio <> stdio)) as [Hne|_]; [by destruct Hne|]. cbn.
  destruct streams as [out inp err]. cbn in Hout, Hin. subst out inp. cbn.
  rewrite !alter_last. cbn.
  destruct err, config0 as [? ? ? ? ? ? []]; cbn; rewrite ?app_nil_r; reflexivity.
Qed.

(** X1. When [connect] succeeds, the transport handed to the protocol
    client is built from exactly the command, arguments and environment the
    child was spawned with; the client is marked connected, its process
    handle names the new child, the error listener is attached (the stderr
    listener only if the child has a stderr), one [connect] call reaches
    the protocol client and the console is written only under [debug]. *)
Theorem connect_success_wires_transport (st : State) streams :
  initialized (fst st) = false ->
  Config.transport (config (fst st)) = stdio ->
  stdout streams = true ->
  stdin streams = true ->
  let out := connect streams (Resolved tt) st in
  fst out = inr tt /\
  initialized (fst (snd out)) = true /\
  process (fst (snd out)) = Some (length (children (snd st))) /\
  exists child t,
    children (snd (snd out)) = children (snd st) ++ [child] /\
    transport (fst (snd out)) = Some t /\
    wire (snd (snd out)) = wire (snd st) ++ [ClientConnect t] /\
    transport_command t = child_command child /\
    transport_args t = child_args child /\
    transport_env t = child_env child /\
    child_command child = Config.command (config (fst st)) /\
    child_args child = Config.args (config (fst st)) /\
    error_listener child = true /\
    stderr_listener child = stderr streams /\
    signalled child = false /\
    console (snd (snd out)) =
      console (snd st) ++
      (if Config.debug (config (fst st))
       then [console_log "MCP Test Client connected successfully"] else []).
Proof.
  intros Hi Hs Hout Hin. cbv zeta.
  rewrite (connect_success_state st streams Hi Hs Hout Hin). cbn.
  repeat split. eexists _, _. repeat split.
Qed.

Lemma connect_success_wires_transport_witness :
  let st := (new overriding_server, boot shell_env) in
  let out := connect all_streams (Resolved tt) st in
  initialized (fst st) = false /\
  Config.transport (config (fst st)) = stdio /\
  fst out = inr tt /\
  initialized (fst (snd out)) = true /\
  process (fst (snd out)) = Some 0%nat /\
  console (snd (snd out)) = [console_log "MCP Test Client connected successfully"].
Proof.
  cbv zeta.
  split; [reflexivity|]. split; [reflexivity|].
  destruct (connect_success_wires_transport (new overriding_server, boot shell_env)
              all_streams eq_refl eq_refl eq_refl eq_refl)
    as (Hres & Hini & Hproc & child & t & _ & _ & _ & _ & _ & _ & _ & _ & _ & _ & _ & Hcons).
  repeat split; assumption.
Defined.

Lemma live_app_signalled (old : list ChildProcess) (c : ChildProcess) :
  filter (fun c => signalled c = false) (old ++ [mark_signalled c])
  = filter (fun c => signalled c = false) old.
Proof. rewrite filter_app. cbn. apply app_nil_r. Qed.

(** X2. A successful [connect] followed by [disconnect] resolves, whatever
    closing the protocol client does, and undoes the connection: the child
    that [connect] spawned has been signalled, so the live children are
    those that were live before, both handles are cleared, the client is
    not connected and its configuration is untouched. *)
Theorem connect_disconnect_round_trip (st : State) streams closing :
  initialized (fst st) = false ->
  Config.transport (config (fst st)) = stdio ->
  stdout streams = true ->
  stdin streams = true ->
  let out := disconnect closing (snd (connect streams (Resolved tt) st)) in
  fst out = inr tt /\
  live (snd (snd out)) = live (snd st) /\
  process (fst (snd out)) = None /\
  transport (fst (snd out)) = None /\
  initialized (fst (snd out)) = false /\
  config (fst (snd out)) = config (fst st).
Proof.
  intros Hi Hs Hout Hin. cbv zeta.
  rewrite (connect_success_state st streams Hi Hs Hout Hin). cbn.
  split; [apply disconnect_resolves|].
  destruct st as [[c t p [cmd a e tmo tr url dbg] i] w]. cbn.
  destruct closing as [[]|err], dbg;
    step_method; rewrite alter_last; cbn;
    (split; [apply live_app_signalled|by repeat split]).
Qed.

Lemma connect_disconnect_round_trip_witness :
  let st := snd (connect all_streams (Rejected handshake_failure) fresh) in
  let out := disconnect (Rejected handshake_failure)
               (snd (connect all_streams (Resolved tt) st)) in
  initialized (fst st) = false /\
  Config.transport (config (fst st)) = stdio /\
  fst out = inr tt /\
  length (live (snd (snd out))) = 1%nat /\
  live (snd (snd out)) = live (snd st) /\
  process (fst (snd out)) = None.
Proof.
  cbv zeta.
  split; [reflexivity|]. split; [reflexivity|].
  destruct (connect_disconnect_round_trip
              (snd (connect all_streams (Rejected handshake_failure) fresh))
              all_streams (Rejected handshake_failure) eq_refl eq_refl eq_refl eq_refl)
    as (Hres & Hlive & Hproc & _).
  split; [exact Hres|]. split; [|split; [exact Hlive | exact Hproc]].
  rewrite Hlive. reflexivity.
Defined.

(** X3. When the spawned child lacks its stdout or its stdin, [connect]
    rejects with "Failed to create process stdio streams" right after the
    spawn: no listener is attached to the child, no transport is built, the
    protocol client is not called and nothing is written to the console. *)
Theorem connect_without_streams (st : State) streams handshake :
  initialized (fst st) = false ->
  Config.transport (config (fst st)) = stdio ->
  stdout streams = false \/ stdin streams = false ->
  let out := connect streams handshake st in
  fst out = inl (Error "Failed to create process stdio streams") /\
  transport (fst (snd out)) = transport (fst st) /\
  wire (snd (snd out)) = wire (snd st) /\
  console (snd (snd out)) = console (snd st) /\
  exists child,
    children (snd (snd out)) = children (snd st) ++ [child] /\
    error_listener child = false /\
    stderr_listener child = false.
Proof.
  open_state st. intros -> Hstdio Hmissing. step_method. rewrite Hstdio.
  destruct (decide (stdio <> stdio)) as [Hne|_]; [by destruct Hne|]. cbn.
  destruct streams as [out inp err]. cbn in Hmissing.
  destruct Hmissing as [-> | ->]; [|destruct out]; cbn;
    repeat split; eexists; repeat split.
Qed.

Lemma connect_without_streams_witness :
  initialized (fst fresh) = false /\
  Config.transport (config (fst fresh)) = stdio /\
  (stdout no_stdin = false \/ stdin no_stdin = false) /\
  fst (connect no_stdin (Resolved tt) fresh)
    = inl (Error "Failed to create process stdio streams") /\
  wire (snd (snd (connect no_stdin (Resolved tt) fresh))) = [].
Proof.
  split; [reflexivity|]. split; [reflexivity|]. split; [by right|].
  destruct (connect_without_streams fresh no_stdin (Resolved tt) eq_refl eq_refl
              (or_intror eq_refl))
    as (Hres & _ & Hwire & _).
  split; [exact Hres | exact Hwire].
Defined.

(** ** Remote calls on a connected client *)

(** X4. On a connected client, when the protocol client rejects a request,
    each of the six forwarding methods rejects with that very error: the
    request went out, and the client object is untouched, so it stays
    connected. *)
Theorem remote_rejection_propagates (st : State) (e : Thrown) :
  initialized (fst st) = true ->
  let sent r := (fst st, with_wire (wire (snd st) ++ [ClientRequest r]) (snd st)) in
  listTools (Rejected e) st = (inl e, sent ListToolsRequest) /\
  (forall name args,
     callTool name args (Rejected e) st
       = (inl e, sent (CallToolRequest name (default [] args)))) /\
  listResources (Rejected e) st = (inl e, sent ListResourcesRequest) /\
  (forall uri, readResource uri (Rejected e) st = (inl e, sent (ReadResourceRequest uri))) /\
  listPrompts (Rejected e) st = (inl e, sent ListPromptsRequest) /\
  (forall name args,
     getPrompt name args (Rejected e) st
       = (inl e, sent (GetPromptRequest name (default [] args)))).
Proof. open_state st. intros ->. repeat split. Qed.

Lemma remote_rejection_propagates_witness :
  initialized (fst connected) = true /\
  fst (callTool "calculate"
         (Some [("operation", JString "divide"); ("a", JNumber 10); ("b", JNumber 0)])
         (Rejected (McpError (-32602) "Division by zero" None)) connected)
    = inl (McpError (-32602) "Division by zero" None).
Proof.
  split; [reflexivity|].
  destruct (remote_rejection_propagates connected
              (McpError (-32602) "Division by zero" None) eq_refl)
    as (_ & Hcall & _).
  rewrite Hcall. reflexivity.
Defined.

(** X5. On a connected client, [listTools], [listResources] and
    [listPrompts] each send one request and resolve with the list the
    server reported, unchanged, or with the empty list when the reply has
    no such field. *)
Theorem list_methods_default_to_empty (st : State) :
  initialized (fst st) = true ->
  let sent r := (fst st, with_wire (wire (snd st) ++ [ClientRequest r]) (snd st)) in
  (forall reported,
     listTools (Resolved {| tools := Some reported |}) st
       = (inr reported, sent ListToolsRequest)) /\
  (forall reported,
     listResources (Resolved {| resources := Some reported |}) st
       = (inr reported, sent ListResourcesRequest)) /\
  (forall reported,
     listPrompts (Resolved {| prompts := Some reported |}) st
       = (inr reported, sent ListPromptsRequest)) /\
  listTools (Resolved {| tools := None |}) st = (inr [], sent ListToolsRequest) /\
  listResources (Resolved {| resources := None |}) st = (inr [], sent ListResourcesRequest) /\
  listPrompts (Resolved {| prompts := None |}) st = (inr [], sent ListPromptsRequest).
Proof. open_state st. intros ->. repeat split. Qed.

Lemma list_methods_default_to_empty_witness :
  initialized (fst connected) = true /\
  fst (listTools (Resolved {| tools := None |}) connected) = inr [] /\
  fst (listTools (Resolved {| tools := Some [] |}) connected) = inr [] /\
  wire (snd (snd (listTools (Resolved {| tools := None |}) connected)))
    = wire (snd connected) ++ [ClientRequest ListToolsRequest].
Proof.
  split; [reflexivity|].
  destruct (list_methods_default_to_empty connected eq_refl)
    as (Hsome & _ & _ & Hnone & _).
  rewrite Hnone, Hsome. repeat split.
Defined.

(** X6. Leaving out the arguments of [callTool] or [getPrompt] is the same
    as passing the empty object; and on a connected client the reply of the
    server is handed back as it came, after one request carrying the given
    name and arguments. *)
Theorem omitted_arguments_are_empty (st : State) (name : string) :
  (forall reply, callTool name None reply st = callTool name (Some []) reply st) /\
  (forall reply, getPrompt name None reply st = getPrompt name (Some []) reply st) /\
  (initialized (fst st) = true ->
   (forall args result,
      callTool name (Some args) (Resolved result) st
        = (inr result,
           (fst st,
            with_wire (wire (snd st) ++ [ClientRequest (CallToolRequest name args)]) (snd st)))) /\
   (forall args result,
      getPrompt name (Some args) (Resolved result) st
        = (inr result,
           (fst st,
            with_wire (wire (snd st) ++ [ClientRequest (GetPromptRequest name args)]) (snd st))))).
Proof.
  split; [reflexivity|]. split; [reflexivity|].
  open_state st. intros ->. split; reflexivity.
Qed.

Lemma omitted_arguments_are_empty_witness :
  initialized (fst connected) = true /\
  wire (snd (snd (callTool "get-weather" None (Rejected handshake_failure) connected)))
    = wire (snd connected) ++ [ClientRequest (CallToolRequest "get-weather" [])] /\
  fst (getPrompt "greeting" (Some [("name", "Ada")]) (Resolved (JString "Hello, Ada")) connected)
    = inr (JString "Hello, Ada").
Proof.
  split; [reflexivity|].
  destruct (omitted_arguments_are_empty connected "get-weather") as (Hcall & _ & _).
  destruct (omitted_arguments_are_empty connected "greeting") as (_ & _ & Hconn).
  destruct (Hconn eq_refl) as [_ Hprompt].
  rewrite Hcall, Hprompt. split; reflexivity.
Defined.

(** X7. On a connected client, [getServerInfo] resolves with a fixed
    placeholder (protocol version "2024-11-05", no capabilities, server
    name and version "unknown") and does nothing else: no request is sent
    and neither the client nor the world changes, whatever server is on the
    other end. *)
Theorem getServerInfo_is_static (st : State) :
  initialized (fst st) = true ->
  getServerInfo st =
    (inr {| protocolVersion := "2024-11-05";
            capabilities := [];
            serverInfo := {| server_name := "unknown"; server_version := "unknown" |} |},
     st).
Proof. open_state st. intros ->. reflexivity. Qed.

Lemma getServerInfo_is_static_witness :
  initialized (fst connected) = true /\
  snd (getServerInfo connected) = connected /\
  wire (snd (snd (getServerInfo connected))) = wire (snd connected).
Proof.
  split; [reflexivity|].
  rewrite (getServerInfo_is_static connected eq_refl). split; reflexivity.
Defined.

(** ** What no history changes *)

Ltac step_fully :=
  cbv beta iota zeta delta
    [exec connect disconnect ensureConnected listTools callTool listResources
     readResource listPrompts getPrompt getServerInfo process_error stderr_data
     client_connect client_close client_request called kill on_child spawn
     write when await try_catch throw this assign the_world effect
     mbind mret M_bind M_ret fst snd negb orb andb
     initialized process transport config client Config.debug Config.transport];
  cbn.

Ltac exec_cases c st :=
  destruct c;
  destruct st as [[cl tr pr [cmd a e tmo tk url dbg] ini] w];
  destruct ini, dbg, tk, pr;
  try match goal with reply : Settled _ |- _ => destruct reply as [?|?] end;
  try match goal with streams : Streams |- _ => destruct streams as [[] [] ?] end;
  try match goal with handshake : Settled unit |- _ => destruct handshake as [[]|?] end;
  step_fully;
  repeat case_decide; try done;
  rewrite ?alter_last; cbn;
  repeat (case_match; simplify_eq/=).

Lemma exec_fixed (c : Call) (st : State) :
  config (fst (exec c st)) = config (fst st) /\
  client (fst (exec c st)) = client (fst st) /\
  process_env (snd (exec c st)) = process_env (snd st).
Proof. exec_cases c st; repeat split. Qed.

Lemma run_cons (c : Call) (calls : list Call) (st : State) :
  run (c :: calls) st = run calls (exec c st).
Proof. reflexivity. Qed.

(** X8. No history of calls changes what the constructor captured or what
    it found around it: the resolved configuration, the protocol client's
    identity and [process.env] are the same after any sequence of method
    calls and child events. *)
Theorem history_keeps_configuration (calls : list Call) (st : State) :
  config (fst (run calls st)) = config (fst st) /\
  client (fst (run calls st)) = client (fst st) /\
  process_env (snd (run calls st)) = process_env (snd st).
Proof.
  revert st. induction calls as [|c calls IH]; intros st; [by repeat split|].
  rewrite run_cons. destruct (IH (exec c st)) as (-> & -> & ->). apply exec_fixed.
Qed.

Lemma exec_silent (c : Call) (st : State) :
  Config.debug (config (fst st)) = false ->
  console (snd (exec c st)) = console (snd st).
Proof.
  exec_cases c st; try done;
    match goal with H : _ && false = true |- _ => by rewrite andb_false_r in H end.
Qed.

(** X9. With [debug] off, nothing is ever written to the console: after
    any history of calls and child events, failed ones included, the
    console is as it was. *)
Theorem silent_without_debug (calls : list Call) (st : State) :
  Config.debug (config (fst st)) = false ->
  console (snd (run calls st)) = console (snd st).
Proof.
  revert st. induction calls as [|c calls IH]; intros st Hquiet; [reflexivity|].
  rewrite run_cons, IH.
  - by apply exec_silent.
  - destruct (exec_fixed c st) as (-> & _). exact Hquiet.
Qed.

Lemma silent_without_debug_witness :
  let calls := [Connect all_streams (Rejected handshake_failure);
                Connect all_streams (Resolved tt);
                ProcessError 1 (Error "spawn node ENOENT");
                StderrData 1 "listening";
                ListTools (Rejected handshake_failure);
                Disconnect (Rejected handshake_failure)] in
  Config.debug (config (fst fresh)) = false /\
  console (snd (run calls fresh)) = [].
Proof.
  cbv zeta. split; [reflexivity|].
  apply (silent_without_debug _ fresh). reflexivity.
Defined.

(** ** Children along a history *)

(** One call leaves the children as they are, spawns one more, or signals
    one. *)
Lemma exec_children (c : Call) (st : State) :
  children (snd (exec c st)) = children (snd st) \/
  (exists child, children (snd (exec c st)) = children (snd st) ++ [child]) \/
  (exists pid, children (snd (exec c st)) = alter mark_signalled pid (children (snd st))).
Proof. exec_cases c st; eauto. Qed.

Lemma same_child_refl (c : ChildProcess) : same_child c c.
Proof. by repeat split. Qed.

Lemma same_child_trans (c1 c2 c3 : ChildProcess) :
  same_child c1 c2 -> same_child c2 c3 -> same_child c1 c3.
Proof.
  intros (? & ? & ? & ? & ?) (? & ? & ? & ? & ?).
  repeat split; try congruence. auto.
Qed.

Lemma exec_keeps_children (c : Call) (st : State) (i : nat) (earlier : ChildProcess) :
  children (snd st) !! i = Some earlier ->
  exists later, children (snd (exec c st)) !! i = Some later /\ same_child earlier later.
Proof.
  intros Hi.
  destruct (exec_children c st) as [-> | [[child ->] | [pid ->]]].
  - exists earlier. split; [exact Hi | apply same_child_refl].
  - exists earlier. split; [by apply lookup_app_l_Some | apply same_child_refl].
  - destruct (decide (pid = i)) as [->|Hne].
    + exists (mark_signalled earlier). rewrite list_lookup_alter_eq, Hi.
      split; [reflexivity | by repeat split].
    + exists earlier. rewrite list_lookup_alter_ne by done.
      split; [exact Hi | apply same_child_refl].
Qed.

(** X10. A child, once spawned, is never forgotten nor rewritten: after
    any history of calls it is still at the same handle with the command,
    arguments, environment and streams it was spawned with, and if it had
    been signalled it still is. *)
Theorem history_keeps_children (calls : list Call) (st : State) (i : nat)
  (earlier : ChildProcess) :
  children (snd st) !! i = Some earlier ->
  exists later,
    children (snd (run calls st)) !! i = Some later /\
    same_child earlier later.
Proof.
  revert st earlier. induction calls as [|c calls IH]; intros st earlier Hi.
  - exists earlier. split; [exact Hi | apply same_child_refl].
  - rewrite run_cons.
    destruct (exec_keeps_children c st i earlier Hi) as (mid & Hmid & Hsame).
    destruct (IH (exec c st) mid Hmid) as (later & Hlater & Hsame').
    exists later. split; [exact Hlater | by eapply same_child_trans].
Qed.

Lemma history_keeps_children_witness :
  let calls := [Disconnect (Resolved tt); Connect all_streams (Resolved tt);
                Disconnect (Rejected handshake_failure)] in
  children (snd connected) !! 0%nat
    = Some {| child_command := "node"; child_args := ["dist/server.js"]; child_env := ∅;
              child_streams := all_streams; error_listener := true;
              stderr_listener := true; signalled := false |} /\
  exists later,
    children (snd (run calls connected)) !! 0%nat = Some later /\
    child_command later = "node" /\ child_env later = ∅.
Proof.
  cbv zeta. split; [reflexivity|].
  destruct (history_keeps_children
              [Disconnect (Resolved tt); Connect all_streams (Resolved tt);
               Disconnect (Rejected handshake_failure)]
              connected 0 _ eq_refl) as (later & Hlater & Hcmd & _ & Henv & _).
  exists later. split; [exact Hlater|]. split; [exact Hcmd | exact Henv].
Defined.

(** ** What being connected means *)

Lemma exec_connection_ok (c : Call) (st : State) :
  connection_ok st -> connection_ok (exec c st).
Proof.
  intros Hok.
  destruct (is_lifecycle c) eqn:Hc.
  - destruct c; try discriminate; cbn [exec].
    + destruct (initialized (fst st)) eqn:Hi.
      { by rewrite connect_when_initialized. }
      destruct (decide (Config.transport (config (fst st)) = stdio)) as [Hs|Hs].
      2:{ rewrite connect_when_unsupported by done. exact Hok. }
      destruct (negb (stdout streams) || negb (stdin streams)) eqn:Hstreams.
      { intros Hinit.
        rewrite (failed_connect_not_initialized st streams handshake LaunchError) in Hinit;
          [discriminate | done |].
        by rewrite connect_outcome, Hstreams. }
      destruct handshake as [[]|e].
      2:{ intros Hinit.
          rewrite (failed_connect_not_initialized st streams (Rejected e) e) in Hinit;
            [discriminate | done |].
          by rewrite connect_outcome, Hstreams. }
      apply orb_false_elim in Hstreams as [Hout Hin].
      apply negb_false_iff in Hout, Hin.
      rewrite (connect_success_state st streams Hi Hs Hout Hin).
      intros _. eexists _, _, _. cbn.
      split; [reflexivity|]. split; [apply list_lookup_middle; reflexivity|].
      by repeat split.
    + intros Hinit. destruct (disconnect_clears st closing) as [Hfalse _].
      cbv zeta in Hfalse. congruence.
  - destruct (exec_frame c st Hc) as [Hself Hchildren].
    unfold connection_ok. rewrite Hself, Hchildren. exact Hok.
Qed.

(** X11. Along every history, a client that is marked connected holds a
    process handle naming a child that was spawned from the configured
    command and arguments and has not been signalled, and a transport
    built from that same child's command, arguments and environment. *)
Theorem connected_means_live_child (st : State) :
  reachable st ->
  initialized (fst st) = true ->
  exists pid child t,
    process (fst st) = Some pid /\
    children (snd st) !! pid = Some child /\
    signalled child = false /\
    transport (fst st) = Some t /\
    transport_command t = child_command child /\
    transport_args t = child_args child /\
    transport_env t = child_env child /\
    child_command child = Config.command (config (fst st)) /\
    child_args child = Config.args (config (fst st)).
Proof.
  intros Hreach. change (connection_ok st).
  induction Hreach as [cfg ambient|c st _ IH].
  - intros Hinit. discriminate.
  - by apply exec_connection_ok.
Qed.

Lemma connected_means_live_child_witness :
  let st := run [Connect all_streams (Rejected handshake_failure);
                 Connect all_streams (Resolved tt);
                 ListTools (Rejected handshake_failure)] fresh in
  reachable st /\
  initialized (fst st) = true /\
  exists pid child t,
    process (fst st) = Some pid /\
    children (snd st) !! pid = Some child /\
    signalled child = false /\
    transport (fst st) = Some t /\
    transport_command t = child_command child /\
    transport_args t = child_args child /\
    transport_env t = child_env child /\
    child_command child = Config.command (config (fst st)) /\
    child_args child = Config.args (config (fst st)).
Proof.
  cbv zeta.
  split; [apply reachable_run, reachable_new|].
  split; [reflexivity|].
  apply connected_means_live_child; [apply reachable_run, reachable_new | reflexivity].
Defined.

(** ** What the protocol client hears *)

Lemma exec_wire_ok (c : Call) (st : State) : wire_ok st -> wire_ok (exec c st).
Proof.
  unfold wire_ok.
  destruct c;
    destruct st as [[cl tr pr [cmd a e tmo tk url dbg] ini] [ambient spawned heard lines]];
    destruct heard as [|first heard], ini, dbg, tk, pr;
    try match goal with reply : Settled _ |- _ => destruct reply as [?|?] end;
    try match goal with streams : Streams |- _ => destruct streams as [[] [] ?] end;
    step_fully; repeat case_decide; try done;
    repeat (case_match; simplify_eq/=); eauto.
Qed.

(** X12. Along every history, the protocol client is never asked anything
    before it has been told to connect: either nothing has been said to it
    and the client is not connected, or the first call it received was
    [connect]. *)
Theorem connect_is_heard_first (st : State) :
  reachable st ->
  match wire (snd st) with
  | [] => initialized (fst st) = false
  | first :: _ => exists t, first = ClientConnect t
  end.
Proof.
  intros Hreach. change (wire_ok st).
  induction Hreach as [cfg ambient|c st _ IH]; [reflexivity|].
  by apply exec_wire_ok.
Qed.

Lemma connect_is_heard_first_witness :
  let st := run [ListTools (Resolved {| tools := None |});
                 Disconnect (Resolved tt);
                 Connect all_streams (Resolved tt);
                 ListTools (Resolved {| tools := None |})] fresh in
  reachable st /\
  match wire (snd st) with
  | [] => initialized (fst st) = false
  | first :: _ => exists t, first = ClientConnect t
  end.
Proof.
  cbv zeta. split; [apply reachable_run, reachable_new|].
  apply connect_is_heard_first. apply reachable_run, reachable_new.
Defined.

(** ** Construction *)

(** X13. [createMCPTestClient] resolves exactly when the configured
    transport is stdio (or left out), the spawned child has its stdout and
    stdin, and the handshake resolves; the client it resolves with is the
    connected one, holding the resolved configuration and the handle of the
    only child spawned. *)
Theorem createMCPTestClient_resolves (cfg : MCPTestClientConfig)
  (ambient : gmap string (option string)) (streams : Streams) (handshake : Settled unit) :
  let out := createMCPTestClient cfg ambient streams handshake in
  ((exists c, fst out = inr c) <->
   (cfg_transport cfg = None \/ cfg_transport cfg = Some stdio) /\
   stdout streams = true /\ stdin streams = true /\
   handshake = Resolved tt) /\
  (forall c, fst out = inr c ->
     c = fst (snd out) /\
     initialized c = true /\
     process c = Some 0%nat /\
     length (children (snd (snd out))) = 1%nat /\
     config c = resolve cfg).
Proof.
  destruct cfg as [cmd a e tmo [[]|] url [[]|]], streams as [[] [] err],
    handshake as [[]|reason];
    unfold createMCPTestClient, new, resolve; step_fully;
    repeat case_decide; try done; cbn;
    (split; [split|]);
    try (intros [c Hc]; discriminate Hc);
    try (intros (_ & ? & ? & ?); discriminate);
    try (intros ([?|?] & _); discriminate);
    try (intros c Hc; discriminate Hc);
    try (intros _; repeat split; eauto);
    try (intros _; eauto);
    try (intros c [= <-]; repeat split; by rewrite length_app).
Qed.

(** X14. The timeout the constructor stores never counts as false: a
    configured timeout of [0], [-0] or [NaN] is replaced by 5000 just as a
    missing one is, and every other configured number is stored as it
    is. *)
Theorem resolved_timeout_never_zero (cfg : MCPTestClientConfig) :
  falsy_number (Config.timeout (config (new cfg))) = false /\
  (cfg_timeout cfg = None \/
   (exists n, cfg_timeout cfg = Some n /\ falsy_number n = true) ->
   Config.timeout (config (new cfg)) = 5000%float) /\
  (forall n, cfg_timeout cfg = Some n -> falsy_number n = false ->
   Config.timeout (config (new cfg)) = n).
Proof.
  destruct cfg as [cmd a e [n|] tk url dbg]; cbn.
  - destruct (falsy_number n) eqn:Hn.
    + split; [reflexivity|]. split; [done|]. intros m [= <-]. congruence.
    + split; [exact Hn|]. split; [|by intros m [= <-]].
      intros [[=]|(m & [= <-] & Hm)]. congruence.
  - split; [reflexivity|]. split; [done|]. intros n [=].
Qed.

(** The numbers that are replaced, and some that are not. *)
Example timeout_sample :
  let timeout_of t :=
    Config.timeout (resolve {| cfg_command := "node"; cfg_args := None; cfg_env := None;
                               cfg_timeout := t; cfg_transport := None;
                               cfg_serverUrl := None; cfg_debug := None |}) in
  timeout_of None = 5000%float /\
  timeout_of (Some 0%float) = 5000%float /\
  timeout_of (Some (-0)%float) = 5000%float /\
  timeout_of (Some PrimFloat.nan) = 5000%float /\
  timeout_of (Some 0.5%float) = 0.5%float /\
  timeout_of (Some (-1)%float) = (-1)%float /\
  timeout_of (Some PrimFloat.infinity) = PrimFloat.infinity.
Proof. vm_compute. repeat split. Qed.

(** * Properties of the mock server *)

Section Registry.
Context {V : Type}.
Implicit Types (m : list (string * V)) (key : string) (value : V).

Lemma map_get_set key key' value m :
  Mock.map_get key' (Mock.map_set key value m)
  = if decide (key = key') then Some value else Mock.map_get key' m.
Proof.
  induction m as [|[k v] m IH]; cbn.
  - by destruct (decide (key = key')).
  - destruct (decide (k = key)) as [->|Hk]; cbn.
    + by destruct (decide (key = key')).
    + rewrite IH. destruct (decide (k = key')) as [->|Hk'].
      * by rewrite decide_False.
      * done.
Qed.

Lemma map_set_keys key value m :
  (Mock.map_set key value m).*1 = if decide (key ∈ m.*1) then m.*1 else m.*1 ++ [key].
Proof.
  induction m as [|[k v] m IH]; cbn.
  - rewrite decide_False; [done | apply not_elem_of_nil].
  - destruct (decide (k = key)) as [->|Hk]; cbn.
    + rewrite decide_True; [done | apply elem_of_cons; by left].
    + rewrite IH. destruct (decide (key ∈ m.*1)) as [Hin|Hin].
      * rewrite decide_True; [done | apply elem_of_cons; by right].
      * rewrite decide_False; [done|]. rewrite elem_of_cons. intros [->|?]; done.
Qed.

Lemma map_set_NoDup key value m : NoDup m.*1 -> NoDup (Mock.map_set key value m).*1.
Proof.
  intros Hm. rewrite map_set_keys. case_decide; [done|].
  apply NoDup_app. split; [done|]. split; [|apply NoDup_singleton].
  intros x Hx Hx'. apply list_elem_of_singleton in Hx' as ->. done.
Qed.

Context (key_of : V -> string).

Lemma write_all_cons m value values :
  Mock.write_all key_of m (value :: values)
  = Mock.write_all key_of (Mock.map_set (key_of value) value m) values.
Proof. reflexivity. Qed.

Lemma write_all_get key m values :
  Mock.map_get key (Mock.write_all key_of m values)
  = match last (filter (fun value => key_of value = key) values) with
    | Some value => Some value
    | None => Mock.map_get key m
    end.
Proof.
  revert m. induction values as [|v values IH]; intros m; [done|].
  rewrite write_all_cons, IH, map_get_set, filter_cons.
  destruct (decide (key_of v = key)) as [Hv|Hv]; [|done].
  generalize (filter (fun value => key_of value = key) values).
  intros [|x l]; [done|].
  change (last (v :: x :: l)) with (last (x :: l)).
  destruct (last (x :: l)) eqn:Hlast; [done|].
  by apply last_None in Hlast.
Qed.

Lemma write_all_keys_NoDup m values : NoDup m.*1 -> NoDup (Mock.write_all key_of m values).*1.
Proof.
  revert m. induction values as [|v values IH]; intros m Hm; [done|].
  apply IH. by apply map_set_NoDup.
Qed.

Lemma write_all_keys_elem key m values :
  key ∈ (Mock.write_all key_of m values).*1 <-> key ∈ m.*1 \/ key ∈ key_of <$> values.
Proof.
  revert m. induction values as [|v values IH]; intros m.
  - cbn. rewrite elem_of_nil. tauto.
  - rewrite write_all_cons, IH, map_set_keys, fmap_cons, elem_of_cons.
    case_decide as Hin.
    + split; [tauto|]. intros [?|[->|?]]; auto.
    + rewrite elem_of_app, list_elem_of_singleton. tauto.
Qed.

Lemma write_all_keys_fresh m values :
  NoDup (m.*1 ++ (key_of <$> values)) ->
  (Mock.write_all key_of m values).*1 = m.*1 ++ (key_of <$> values).
Proof.
  revert m. induction values as [|v values IH]; intros m Hnd.
  - cbn. by rewrite app_nil_r.
  - rewrite write_all_cons.
    rewrite fmap_cons in Hnd.
    assert (key_of v ∉ m.*1) as Hfresh.
    { apply NoDup_app in Hnd as (_ & Hdisj & _). intros Hin.
      apply (Hdisj _ Hin). apply elem_of_cons. by left. }
    assert ((Mock.map_set (key_of v) v m).*1 = m.*1 ++ [key_of v]) as Hkeys
      by (rewrite map_set_keys; by rewrite decide_False).
    rewrite IH, Hkeys, fmap_cons, <- app_assoc; [done|].
    rewrite Hkeys, <- app_assoc. exact Hnd.
Qed.

Lemma write_all_keyed m values :
  Forall (fun entry => fst entry = key_of (snd entry)) m ->
  Forall (fun entry => fst entry = key_of (snd entry)) (Mock.write_all key_of m values).
Proof.
  revert m. induction values as [|v values IH]; intros m Hm; [done|].
  apply IH. clear IH. induction m as [|[k x] m IHm]; cbn.
  - by constructor.
  - apply Forall_cons in Hm as [Hk Hm]. case_decide; constructor; auto.
Qed.

End Registry.

Lemma register_tools (tools : list Mock.Tool.t) (resources : list Mock.Resource.t)
  (self : Mock.MockMCPServer) :
  Mock.tools (Mock.register tools resources self)
  = Mock.write_all Mock.Tool.name (Mock.tools self) tools.
Proof.
  unfold Mock.register.
  assert (forall s, Mock.tools (foldl (fun s res => Mock.addResource res s) s resources)
                    = Mock.tools s) as ->.
  { induction resources as [|r rs IH]; intros s; [done|]. cbn. by rewrite IH. }
  revert self. induction tools as [|t ts IH]; intros self; [done|].
  cbn. by rewrite IH.
Qed.

Lemma register_resources (tools : list Mock.Tool.t) (resources : list Mock.Resource.t)
  (self : Mock.MockMCPServer) :
  Mock.resources (Mock.register tools resources self)
  = Mock.write_all Mock.Resource.uri (Mock.resources self) resources.
Proof.
  unfold Mock.register.
  assert (forall s, Mock.resources (foldl (fun s tool => Mock.addTool tool s) s tools)
                    = Mock.resources s) as Htools.
  { induction tools as [|t ts IH]; intros s; [done|]. cbn. by rewrite IH. }
  rewrite <- (Htools self).
  generalize (foldl (fun s tool => Mock.addTool tool s) self tools).
  induction resources as [|r rs IH]; intros s; [done|].
  cbn. by rewrite IH.
Qed.

Lemma write_all_app {V} (key_of : V -> string) (m : list (string * V)) (xs ys : list V) :
  Mock.write_all key_of m (xs ++ ys) = Mock.write_all key_of (Mock.write_all key_of m xs) ys.
Proof. unfold Mock.write_all. apply foldl_app. Qed.

Lemma built_tools (config : Mock.MockServerConfig) tools resources :
  Mock.tools (Mock.built config tools resources)
  = Mock.write_all Mock.Tool.name [] (Mock.all_tools config tools).
Proof.
  unfold Mock.built, Mock.all_tools. by rewrite register_tools, write_all_app.
Qed.

Lemma built_resources (config : Mock.MockServerConfig) tools resources :
  Mock.resources (Mock.built config tools resources)
  = Mock.write_all Mock.Resource.uri [] (Mock.all_resources config resources).
Proof.
  unfold Mock.built, Mock.all_resources. by rewrite register_resources, write_all_app.
Qed.

Lemma map_get_elem {V} (m : list (string * V)) (key : string) (value : V) :
  NoDup m.*1 -> (key, value) ∈ m -> Mock.map_get key m = Some value.
Proof.
  induction m as [|[k v] m IH]; intros Hnd Hin; [by apply elem_of_nil in Hin|].
  cbn in *. apply NoDup_cons in Hnd as [Hk Hnd].
  apply elem_of_cons in Hin as [[= -> ->]|Hin].
  - by rewrite decide_True.
  - rewrite decide_False; [by apply IH|].
    intros ->. apply Hk. apply list_elem_of_fmap. by exists (key, value).
Qed.

Lemma keyed_names {V} (key_of : V -> string) (m : list (string * V)) :
  Forall (fun entry => fst entry = key_of (snd entry)) m ->
  key_of <$> m.*2 = m.*1.
Proof.
  induction 1 as [|[k v] m Hk _ IH]; [done|]. cbn in *. by rewrite IH, Hk.
Qed.

Lemma getTools_names (self : Mock.MockMCPServer) :
  Mock.listed_name <$> Mock.getTools self = Mock.Tool.name <$> (Mock.tools self).*2.
Proof. unfold Mock.getTools. by rewrite <- list_fmap_compose. Qed.

Lemma getResources_uris (self : Mock.MockMCPServer) :
  resource_uri <$> Mock.getResources self = Mock.Resource.uri <$> (Mock.resources self).*2.
Proof. unfold Mock.getResources. by rewrite <- list_fmap_compose. Qed.

(** X15. Registering and calling: after [addTool(tool)], [callTool] under
    the tool's name runs the new tool's handler on the given arguments, and
    under any other name does what it did before; likewise [addResource]
    and [readResource]; and neither registry touches the other. *)
Theorem mock_add_then_call (self : Mock.MockMCPServer) (tool : Mock.Tool.t)
  (res : Mock.Resource.t) (name : string) (args : list (string * Json)) :
  Mock.callTool name args (Mock.addTool tool self)
    = (if decide (Mock.Tool.name tool = name) then Mock.Tool.handler tool args
       else Mock.callTool name args self) /\
  Mock.readResource name (Mock.addResource res self)
    = (if decide (Mock.Resource.uri res = name) then Mock.Resource.handler res name
       else Mock.readResource name self) /\
  Mock.callTool name args (Mock.addResource res self) = Mock.callTool name args self /\
  Mock.readResource name (Mock.addTool tool self) = Mock.readResource name self.
Proof.
  unfold Mock.callTool, Mock.readResource. cbn. rewrite !map_get_set.
  repeat split; by case_decide.
Qed.

(** X16. On a server made by the constructor and any later registrations,
    [callTool] runs the handler of the tool registered last under that
    name, and rejects with "Tool '<name>' not found" when no tool was
    registered under it; [readResource] does the same with uris and
    "Resource '<uri>' not found". *)
Theorem mock_call_last_registered (config : Mock.MockServerConfig)
  (tools : list Mock.Tool.t) (resources : list Mock.Resource.t)
  (name : string) (args : list (string * Json)) :
  let self := Mock.built config tools resources in
  Mock.callTool name args self
    = match last (filter (fun tool => Mock.Tool.name tool = name)
                    (Mock.all_tools config tools)) with
      | Some tool => Mock.Tool.handler tool args
      | None => inl (Error ("Tool '" +:+ name +:+ "' not found"))
      end /\
  Mock.readResource name self
    = match last (filter (fun res => Mock.Resource.uri res = name)
                    (Mock.all_resources config resources)) with
      | Some res => Mock.Resource.handler res name
      | None => inl (Error ("Resource '" +:+ name +:+ "' not found"))
      end.
Proof.
  cbv zeta. unfold Mock.callTool, Mock.readResource.
  rewrite built_tools, built_resources, !write_all_get. cbn.
  split; by destruct (last _).
Qed.

(** X17. On such a server, [getTools] lists every name that was registered
    and no other, each once; an entry carries the description and schema of
    the tool registered last under its name; and when all registered names
    differ, the entries come in the order of registration. *)
Theorem mock_getTools_lists_registered (config : Mock.MockServerConfig)
  (tools : list Mock.Tool.t) (resources : list Mock.Resource.t) :
  let listed := Mock.getTools (Mock.built config tools resources) in
  let registered := Mock.all_tools config tools in
  NoDup (Mock.listed_name <$> listed) /\
  (forall name, name ∈ Mock.listed_name <$> listed <-> name ∈ Mock.Tool.name <$> registered) /\
  (forall entry, entry ∈ listed ->
     exists tool,
       last (filter (fun tool => Mock.Tool.name tool = Mock.listed_name entry) registered)
         = Some tool /\
       Mock.listed_description entry = Mock.Tool.description tool /\
       Mock.listed_inputSchema entry = Mock.Tool.inputSchema tool) /\
  (NoDup (Mock.Tool.name <$> registered) ->
   Mock.listed_name <$> listed = Mock.Tool.name <$> registered).
Proof.
  cbv zeta.
  pose proof (write_all_keyed Mock.Tool.name [] (Mock.all_tools config tools)
                (Forall_nil_2 _)) as Hkeyed.
  pose proof (write_all_keys_NoDup Mock.Tool.name [] (Mock.all_tools config tools)
                (NoDup_nil_2)) as Hnodup.
  rewrite getTools_names, built_tools, (keyed_names _ _ Hkeyed).
  split; [exact Hnodup|]. split; [|split].
  - intros name. rewrite write_all_keys_elem. cbn. rewrite elem_of_nil. tauto.
  - intros entry Hentry. unfold Mock.getTools in Hentry.
    rewrite built_tools in Hentry.
    apply list_elem_of_fmap in Hentry as (tool & -> & Htool).
    apply list_elem_of_fmap in Htool as ([key tool'] & -> & Hin). cbn.
    exists tool'. split; [|done].
    pose proof (map_get_elem _ _ _ Hnodup Hin) as Hget.
    rewrite write_all_get in Hget. cbn in Hget.
    rewrite Forall_forall in Hkeyed. specialize (Hkeyed _ Hin). cbn in Hkeyed. subst key.
    by destruct (last _).
  - intros Hfresh. by rewrite write_all_keys_fresh.
Qed.

(** X18. On such a server, registering a tool under a name already listed
    keeps the list of names as it is, the new tool taking the place of the
    old one, and registering it under a new name adds the name at the end. *)
Theorem mock_addTool_keeps_position (config : Mock.MockServerConfig)
  (tools : list Mock.Tool.t) (resources : list Mock.Resource.t) (tool : Mock.Tool.t) :
  let self := Mock.built config tools resources in
  let names := Mock.listed_name <$> Mock.getTools self in
  Mock.listed_name <$> Mock.getTools (Mock.addTool tool self)
    = if decide (Mock.Tool.name tool ∈ names) then names else names ++ [Mock.Tool.name tool].
Proof.
  cbv zeta.
  pose proof (write_all_keyed Mock.Tool.name [] (Mock.all_tools config tools)
                (Forall_nil_2 _)) as Hkeyed.
  pose proof (write_all_keyed Mock.Tool.name [] (Mock.all_tools config tools ++ [tool])
                (Forall_nil_2 _)) as Hkeyed'.
  rewrite write_all_app in Hkeyed'. cbn in Hkeyed'.
  rewrite !getTools_names. cbn [Mock.addTool Mock.tools].
  rewrite built_tools, (keyed_names _ _ Hkeyed), (keyed_names _ _ Hkeyed').
  apply map_set_keys.
Qed.

(** X19. On such a server, [getResources] lists every uri that was
    registered and no other, each once, in the order of registration when
    all registered uris differ. *)
Theorem mock_getResources_lists_registered (config : Mock.MockServerConfig)
  (tools : list Mock.Tool.t) (resources : list Mock.Resource.t) :
  let listed := Mock.getResources (Mock.built config tools resources) in
  let registered := Mock.all_resources config resources in
  NoDup (resource_uri <$> listed) /\
  (forall uri, uri ∈ resource_uri <$> listed <-> uri ∈ Mock.Resource.uri <$> registered) /\
  (NoDup (Mock.Resource.uri <$> registered) ->
   resource_uri <$> listed = Mock.Resource.uri <$> registered).
Proof.
  cbv zeta.
  pose proof (write_all_keyed Mock.Resource.uri [] (Mock.all_resources config resources)
                (Forall_nil_2 _)) as Hkeyed.
  rewrite getResources_uris, built_resources, (keyed_names _ _ Hkeyed).
  split; [by apply write_all_keys_NoDup, NoDup_nil_2|]. split.
  - intros uri. rewrite write_all_keys_elem. cbn. rewrite elem_of_nil. tauto.
  - intros Hfresh. by rewrite write_all_keys_fresh.
Qed.

(** * Properties of the matchers *)

Lemma white_space_2_lead (b1 b2 : Ascii.ascii) :
  Matchers.white_space_2 b1 b2 = true -> Matchers.white_space_1 b1 = false.
Proof.
  unfold Matchers.white_space_2, Matchers.white_space_1.
  intros [->%N.eqb_eq _]%andb_true_iff. reflexivity.
Qed.

Lemma white_space_3_lead (b1 b2 b3 : Ascii.ascii) :
  Matchers.white_space_3 b1 b2 b3 = true ->
  Matchers.white_space_1 b1 = false /\ Matchers.white_space_2 b1 b2 = false.
Proof.
  unfold Matchers.white_space_3, Matchers.white_space_2, Matchers.white_space_1.
  cbv zeta. rewrite !orb_true_iff.
  intros [[[[[H|H]|H]|H]|H]|H];
    apply andb_true_iff in H as [->%N.eqb_eq _]; split; reflexivity.
Qed.

Lemma trimStart_blank_bounded (n : nat) (s : string) :
  String.length s <= n -> Matchers.trimStart s = "" -> Matchers.blank s.
Proof.
  revert s. induction n as [|n IH]; intros s Hlen.
  - destruct s; [constructor | cbn in Hlen; lia].
  - destruct s as [|b1 [|b2 [|b3 rest]]]; cbn in *; [constructor|..].
    + destruct (Matchers.white_space_1 b1) eqn:H1; [|done].
      intros _. apply Matchers.blank_1; [done | constructor].
    + destruct (Matchers.white_space_1 b1) eqn:H1.
      { intros Hrest. apply Matchers.blank_1; [done|]. apply IH; [cbn; lia | done]. }
      destruct (Matchers.white_space_2 b1 b2) eqn:H2; [|done].
      intros _. apply Matchers.blank_2; [done | constructor].
    + destruct (Matchers.white_space_1 b1) eqn:H1.
      { intros Hrest. apply Matchers.blank_1; [done|]. apply IH; [cbn; lia | done]. }
      destruct (Matchers.white_space_2 b1 b2) eqn:H2.
      { intros Hrest. apply Matchers.blank_2; [done|]. apply IH; [cbn; lia | done]. }
      destruct (Matchers.white_space_3 b1 b2 b3) eqn:H3; [|done].
      intros Hrest. apply Matchers.blank_3; [done|]. apply IH; [lia | done].
Qed.

Lemma trimStart_blank (s : string) : Matchers.trimStart s = "" <-> Matchers.blank s.
Proof.
  split; [by apply (trimStart_blank_bounded (String.length s))|].
  induction 1 as [|b1 s H1 _ IH|b1 b2 s H2 _ IH|b1 b2 b3 s H3 _ IH]; [done|..].
  - cbn. by rewrite H1.
  - cbn. by rewrite (white_space_2_lead _ _ H2), H2.
  - destruct (white_space_3_lead _ _ _ H3) as [H1 H2]. cbn. by rewrite H1, H2, H3.
Qed.

Lemma trimStart_fixed_bounded (n : nat) (s : string) :
  String.length s <= n -> Matchers.trimStart (Matchers.trimStart s) = Matchers.trimStart s.
Proof.
  revert s. induction n as [|n IH]; intros s Hlen.
  - destruct s; [done | cbn in Hlen; lia].
  - destruct s as [|b1 [|b2 [|b3 rest]]]; [done|..].
    + cbn. destruct (Matchers.white_space_1 b1) eqn:H1; [done|]. cbn. by rewrite H1.
    + change (Matchers.trimStart (String b1 (String b2 "")))
        with (if Matchers.white_space_1 b1 then Matchers.trimStart (String b2 "")
              else if Matchers.white_space_2 b1 b2 then Matchers.trimStart ""
                   else String b1 (String b2 "")).
      destruct (Matchers.white_space_1 b1) eqn:H1; [apply IH; cbn in *; lia|].
      destruct (Matchers.white_space_2 b1 b2) eqn:H2; [done|].
      cbn. by rewrite H1, H2.
    + change (Matchers.trimStart (String b1 (String b2 (String b3 rest))))
        with (if Matchers.white_space_1 b1
              then Matchers.trimStart (String b2 (String b3 rest))
              else if Matchers.white_space_2 b1 b2 then Matchers.trimStart (String b3 rest)
                   else if Matchers.white_space_3 b1 b2 b3 then Matchers.trimStart rest
                        else String b1 (String b2 (String b3 rest))).
      destruct (Matchers.white_space_1 b1) eqn:H1; [apply IH; cbn in *; lia|].
      destruct (Matchers.white_space_2 b1 b2) eqn:H2; [apply IH; cbn in *; lia|].
      destruct (Matchers.white_space_3 b1 b2 b3) eqn:H3; [apply IH; cbn in *; lia|].
      cbn [Matchers.trimStart]. by rewrite H1, H2, H3.
Qed.

Lemma trimEnd_empty (s : string) :
  Matchers.trimEnd s = "" <-> Matchers.trimStart s = "".
Proof.
  destruct s as [|b rest]; [done|].
  cbn [Matchers.trimEnd].
  destruct (String.eqb_spec (Matchers.trimStart (String b rest)) ""); split; done.
Qed.

(** [trim] gives the empty string exactly on the strings made of white
    space only. *)
Lemma trim_empty (s : string) : Matchers.trim s = "" <-> Matchers.blank s.
Proof.
  unfold Matchers.trim.
  rewrite trimEnd_empty, (trimStart_fixed_bounded (String.length s)) by done.
  apply trimStart_blank.
Qed.

Lemma not_an_object_value_false (v : Matchers.JsValue) :
  Matchers.not_an_object_value v = false <->
  Matchers.object_like v.
Proof.
  unfold Matchers.object_like.
  unfold Matchers.not_an_object_value.
  destruct v; cbn; rewrite ?orb_true_r;
    split; try done; try (intros [[? [=]]|[? [=]]]); eauto.
Qed.

Lemma not_a_filled_string_false (v : Matchers.JsValue) :
  Matchers.not_a_filled_string v = false <->
  exists s, v = Matchers.JsString s /\ ~ Matchers.blank s.
Proof.
  unfold Matchers.not_a_filled_string.
  destruct v; cbn; split; try done; try by intros (? & [=] & _).
  - intros Hs. exists s. split; [done|].
    apply String.eqb_neq in Hs. by rewrite trim_empty in Hs.
  - intros (s' & [= <-] & Hfilled).
    apply String.eqb_neq. by rewrite trim_empty.
Qed.

Lemma strict_eq_string (v : Matchers.JsValue) (s : string) :
  Matchers.strict_eq v (Matchers.JsString s) = true <-> v = Matchers.JsString s.
Proof.
  destruct v; cbn; split; try done.
  - by intros ->%String.eqb_eq.
  - intros [= ->]. apply String.eqb_refl.
Qed.

Lemma strict_eq_number (v : Matchers.JsValue) (n : Z) :
  Matchers.strict_eq v (Matchers.JsNumber n) = true <-> v = Matchers.JsNumber n.
Proof.
  destruct v; cbn; split; try done.
  - by intros ->%Z.eqb_eq.
  - intros [= ->]. apply Z.eqb_refl.
Qed.

Lemma strict_eq_bool (v : Matchers.JsValue) (b : bool) :
  Matchers.strict_eq v (Matchers.JsBool b) = true <-> v = Matchers.JsBool b.
Proof.
  destruct v; cbn; split; try done.
  - by intros ->%Bool.eqb_prop.
  - intros [= ->]. apply Bool.eqb_reflx.
Qed.

(** Reading a property gives something other than [undefined] only on an
    object that has it. *)
Lemma get_defined (v x : Matchers.JsValue) (key : string) :
  x <> Matchers.JsUndefined ->
  Matchers.get v key = x <->
  exists fields, v = Matchers.JsObject fields /\ fields !! key = Some x.
Proof.
  intros Hx. destruct v; cbn; split; try congruence;
    try by intros (? & [=] & _).
  - destruct (fields !! key) as [y|] eqn:Hy; cbn; [|congruence].
    intros ->. eauto.
  - intros (fields' & [= <-] & ->). done.
Qed.

Ltac negb_cases :=
  repeat match goal with
    | H : negb _ = false |- _ => apply negb_false_iff in H
    | H : negb _ = true |- _ => apply negb_true_iff in H
    end.

Lemma toBeValidMCPTool_shape (received : Matchers.JsValue) :
  Matchers.toBeValidMCPTool received = Matchers.Pass <->
  exists fields name schema,
    received = Matchers.JsObject fields /\
    fields !! "name" = Some (Matchers.JsString name) /\
    ~ Matchers.blank name /\
    fields !! "inputSchema" = Some (Matchers.JsObject schema) /\
    schema !! "type" = Some (Matchers.JsString "object").
Proof.
  unfold Matchers.toBeValidMCPTool. cbv zeta. split.
  - destruct (Matchers.not_an_object_value received) eqn:Hobj; [done|].
    destruct (Matchers.not_a_filled_string _) eqn:Hname; [done|].
    destruct (Matchers.not_an_object_value (Matchers.get received "inputSchema")) eqn:Hschema;
      [done|].
    destruct (negb _) eqn:Htype; [done|]. intros _. negb_cases.
    apply not_a_filled_string_false in Hname as (name & Hname & Hfilled).
    apply get_defined in Hname as (fields & -> & Hname); [|done].
    apply strict_eq_string, get_defined in Htype as (schema & Hs & Htype); [|done].
    apply get_defined in Hs as (fields' & [= <-] & Hs); [|done].
    by exists fields, name, schema.
  - intros (fields & name & schema & -> & Hname & Hfilled & Hschema & Htype).
    assert (Matchers.not_a_filled_string (Matchers.get (Matchers.JsObject fields) "name")
            = false) as ->.
    { apply not_a_filled_string_false. exists name. cbn. by rewrite Hname. }
    cbn. rewrite Hschema. cbn. rewrite Htype. cbn. reflexivity.
Qed.

(** X20. [toBeValidMCPTool] passes exactly on an object whose [name] is a
    string not made of white space only and whose [inputSchema]
    is an object with [type] equal to ['object']; a blank name, a missing
    schema, an array and a primitive all fail. *)
Theorem toBeValidMCPTool_passes_iff (received : Matchers.JsValue) :
  Matchers.toBeValidMCPTool received = Matchers.Pass <->
  exists fields name schema,
    received = Matchers.JsObject fields /\
    fields !! "name" = Some (Matchers.JsString name) /\
    ~ Matchers.blank name /\
    fields !! "inputSchema" = Some (Matchers.JsObject schema) /\
    schema !! "type" = Some (Matchers.JsString "object").
Proof. apply toBeValidMCPTool_shape. Qed.

Lemma toBeValidMCPResource_shape (received : Matchers.JsValue) :
  Matchers.toBeValidMCPResource received = Matchers.Pass <->
  exists fields uri name,
    received = Matchers.JsObject fields /\
    fields !! "uri" = Some (Matchers.JsString uri) /\
    ~ Matchers.blank uri /\
    fields !! "name" = Some (Matchers.JsString name) /\
    ~ Matchers.blank name.
Proof.
  unfold Matchers.toBeValidMCPResource. cbv zeta. split.
  - destruct (Matchers.not_an_object_value received) eqn:Hobj; [done|].
    destruct (Matchers.not_a_filled_string (Matchers.get received "uri")) eqn:Huri; [done|].
    destruct (Matchers.not_a_filled_string (Matchers.get received "name")) eqn:Hname; [done|].
    intros _.
    apply not_a_filled_string_false in Huri as (uri & Huri & Hu).
    apply not_a_filled_string_false in Hname as (name & Hname & Hn).
    apply get_defined in Huri as (fields & -> & Huri); [|done].
    apply get_defined in Hname as (fields' & [= <-] & Hname); [|done].
    by exists fields, uri, name.
  - intros (fields & uri & name & -> & Huri & Hu & Hname & Hn).
    assert (Matchers.not_a_filled_string (Matchers.get (Matchers.JsObject fields) "uri")
            = false) as ->.
    { apply not_a_filled_string_false. exists uri. cbn. by rewrite Huri. }
    assert (Matchers.not_a_filled_string (Matchers.get (Matchers.JsObject fields) "name")
            = false) as ->.
    { apply not_a_filled_string_false. exists name. cbn. by rewrite Hname. }
    reflexivity.
Qed.

(** X21. [toBeValidMCPResource] passes exactly on an object whose [uri] and
    [name] are both strings not made of white space only. *)
Theorem toBeValidMCPResource_passes_iff (received : Matchers.JsValue) :
  Matchers.toBeValidMCPResource received = Matchers.Pass <->
  exists fields uri name,
    received = Matchers.JsObject fields /\
    fields !! "uri" = Some (Matchers.JsString uri) /\
    ~ Matchers.blank uri /\
    fields !! "name" = Some (Matchers.JsString name) /\
    ~ Matchers.blank name.
Proof. apply toBeValidMCPResource_shape. Qed.

Lemma is_content_type_true (v : Matchers.JsValue) :
  Matchers.is_content_type v = true <->
  exists type, v = Matchers.JsString type /\ type ∈ ["text"; "image"; "resource"].
Proof.
  unfold Matchers.is_content_type. rewrite !orb_true_iff, !strict_eq_string. split.
  - intros [[->| ->]| ->]; eexists; (split; [reflexivity|]);
      rewrite !elem_of_cons; auto.
  - intros (type & -> & Hin). rewrite !elem_of_cons, elem_of_nil in Hin.
    destruct Hin as [->|[->|[->|[]]]]; auto.
Qed.

Lemma item_accepted (item : Matchers.JsValue) :
  negb (Matchers.truthy (Matchers.get item "type"))
  || negb (Matchers.is_content_type (Matchers.get item "type")) = false <->
  Matchers.content_item item.
Proof.
  rewrite orb_false_iff, !negb_false_iff. unfold Matchers.content_item. split.
  - intros [_ (type & Hget & Hin)%is_content_type_true].
    apply get_defined in Hget as (fields & -> & Hget); [|done]. eauto.
  - intros (fields & type & -> & Hget & Hin). cbn. rewrite Hget. cbn.
    split; [|apply is_content_type_true; eauto].
    destruct type; [|done].
    rewrite !elem_of_cons, elem_of_nil in Hin.
    by destruct Hin as [?|[?|[?|[]]]].
Qed.

Lemma content_item_not_nullish (item : Matchers.JsValue) :
  Matchers.content_item item -> Matchers.nullish item = false.
Proof. by intros (fields & type & -> & _). Qed.

Lemma nullish_true (item : Matchers.JsValue) :
  Matchers.nullish item = true <-> item = Matchers.JsUndefined \/ item = Matchers.JsNull.
Proof. destruct item; cbn; split; try done; auto; by intros [|]. Qed.

Lemma check_items_None (items : list Matchers.JsValue) :
  Matchers.check_items items = None <-> Forall Matchers.content_item items.
Proof.
  induction items as [|item rest IH]; [by split|].
  cbn [Matchers.check_items]. rewrite Forall_cons.
  destruct (Matchers.nullish item) eqn:Hnull.
  - split; [done|]. intros [Hitem%content_item_not_nullish _]. congruence.
  - destruct (negb _ || negb _) eqn:Haccept.
    + split; [done|]. intros [Hitem%item_accepted _]. congruence.
    + apply item_accepted in Haccept. rewrite IH. tauto.
Qed.

Lemma check_items_throws (items : list Matchers.JsValue) :
  Matchers.check_items items = Some Matchers.ThrowsTypeError <->
  exists before item after,
    items = before ++ item :: after /\
    Forall Matchers.content_item before /\
    (item = Matchers.JsUndefined \/ item = Matchers.JsNull).
Proof.
  induction items as [|item rest IH].
  - split; [done|]. intros (before & ? & ? & Heq & _). by destruct before.
  - cbn [Matchers.check_items]. destruct (Matchers.nullish item) eqn:Hnull.
    + split; [|done]. intros _. exists [], item, rest.
      split; [done|]. split; [constructor | by apply nullish_true].
    + assert (~ (item = Matchers.JsUndefined \/ item = Matchers.JsNull)) as Hnot
        by (rewrite <- nullish_true; congruence).
      destruct (negb _ || negb _) eqn:Haccept.
      * split; [done|]. intros ([|first before] & x & after & Heq & Hbefore & Hx).
        -- injection Heq as <- _. tauto.
        -- injection Heq as <- _. apply Forall_cons in Hbefore as [Hfirst%item_accepted _].
           congruence.
      * apply item_accepted in Haccept. rewrite IH. split.
        -- intros (before & x & after & -> & Hbefore & Hx).
           exists (item :: before), x, after.
           split; [done|]. split; [by constructor | done].
        -- intros ([|first before] & x & after & Heq & Hbefore & Hx).
           ++ injection Heq as <- _. tauto.
           ++ injection Heq as <- ->. apply Forall_cons in Hbefore as [_ Hbefore].
              by exists before, x, after.
Qed.

(** X22. [toMatchMCPToolResponse] passes exactly on an object whose
    [content] is a non-empty array of objects, each with a [type] among
    ['text'], ['image'] and ['resource'], and which meets what is expected:
    its [isError] is the expected boolean, if one is expected, and its
    content is as long as the expected content, if one is expected. *)
Theorem toMatchMCPToolResponse_passes_iff (received : Matchers.JsValue)
  (expected : option Matchers.ExpectedToolResult) :
  Matchers.toMatchMCPToolResponse received expected = Matchers.Returns Matchers.Pass <->
  exists fields items,
    received = Matchers.JsObject fields /\
    fields !! "content" = Some (Matchers.JsArray items) /\
    items <> [] /\
    Forall Matchers.content_item items /\
    (forall wanted b,
       expected = Some wanted -> Matchers.expected_isError wanted = Some b ->
       fields !! "isError" = Some (Matchers.JsBool b)) /\
    (forall wanted content,
       expected = Some wanted -> Matchers.expected_content wanted = Some content ->
       length content = length items).
Proof.
  unfold Matchers.toMatchMCPToolResponse. cbv zeta. split.
  - destruct (Matchers.not_an_object_value received) eqn:Hobj; [done|].
    destruct (Matchers.get received "content") as [| | | | |items|] eqn:Hcontent; try done.
    apply get_defined in Hcontent as (fields & -> & Hcontent); [|done].
    destruct (Nat.eqb_spec (length items) 0) as [|Hlen]; [done|].
    destruct (Matchers.check_items items) as [stopped|] eqn:Hitems.
    { intros ->. revert Hitems. clear. induction items as [|item rest IH]; [done|].
      cbn [Matchers.check_items]. repeat case_match; done. }
    apply check_items_None in Hitems.
    intros Hpass. exists fields, items. repeat split; try done.
    + by destruct items.
    + intros wanted b -> Hb. rewrite Hb in Hpass.
      destruct (negb _) eqn:Heq; [done|]. negb_cases.
      apply strict_eq_bool, get_defined in Heq as (fields' & [= <-] & ?); done.
    + intros wanted content -> Hc. rewrite Hc in Hpass.
      destruct (match Matchers.expected_isError wanted with Some _ => _ | None => _ end);
        [done|].
      destruct (Nat.eqb_spec (length content) (length items)); done.
  - intros (fields & items & -> & Hcontent & Hne & Hitems & Herr & Hlen).
    cbn. rewrite Hcontent. cbn.
    destruct (Nat.eqb_spec (length items) 0) as [Hz|_];
      [by destruct items|].
    apply check_items_None in Hitems. rewrite Hitems.
    destruct expected as [wanted|]; [|done].
    destruct (Matchers.expected_isError wanted) as [b|] eqn:Hb.
    + rewrite (Herr wanted b eq_refl Hb). cbn. rewrite Bool.eqb_reflx. cbn.
      destruct (Matchers.expected_content wanted) as [content|] eqn:Hc; [|done].
      by rewrite (Hlen wanted content eq_refl Hc), Nat.eqb_refl.
    + destruct (Matchers.expected_content wanted) as [content|] eqn:Hc; [|done].
      by rewrite (Hlen wanted content eq_refl Hc), Nat.eqb_refl.
Qed.

(** X23. [toMatchMCPToolResponse] throws, instead of reporting a failed
    match, exactly when the content array holds a [null] or an [undefined]
    with only well-typed items before it; whatever is expected plays no
    part. In particular it returns whenever the content holds neither. *)
Theorem toMatchMCPToolResponse_throws_iff (received : Matchers.JsValue)
  (expected : option Matchers.ExpectedToolResult) :
  Matchers.toMatchMCPToolResponse received expected = Matchers.ThrowsTypeError <->
  exists fields before item after,
    received = Matchers.JsObject fields /\
    fields !! "content" = Some (Matchers.JsArray (before ++ item :: after)) /\
    Forall Matchers.content_item before /\
    (item = Matchers.JsUndefined \/ item = Matchers.JsNull).
Proof.
  unfold Matchers.toMatchMCPToolResponse. cbv zeta. split.
  - destruct (Matchers.not_an_object_value received) eqn:Hobj; [done|].
    destruct (Matchers.get received "content") as [| | | | |items|] eqn:Hcontent; try done.
    apply get_defined in Hcontent as (fields & -> & Hcontent); [|done].
    destruct (Nat.eqb_spec (length items) 0) as [|Hlen]; [done|].
    destruct (Matchers.check_items items) as [stopped|] eqn:Hitems.
    + intros ->. apply check_items_throws in Hitems
        as (before & item & after & -> & Hbefore & Hitem).
      by exists fields, before, item, after.
    + repeat case_match; done.
  - intros (fields & before & item & after & -> & Hcontent & Hbefore & Hitem).
    cbn. rewrite Hcontent. cbn.
    destruct (Nat.eqb_spec (length (before ++ item :: after)) 0) as [Hz|_].
    { rewrite length_app in Hz. cbn in Hz. lia. }
    assert (Matchers.check_items (before ++ item :: after) = Some Matchers.ThrowsTypeError)
      as -> by (apply check_items_throws; by exists before, item, after).
    reflexivity.
Qed.

(** X24. [toMatchMCPError] passes exactly on an object or an array that
    meets each expectation given: its [code] is the expected number, its
    [message] is the expected string, or the expected pattern accepts its
    [message], the empty string standing in for a message that is missing
    or false in a condition. With nothing expected, every object and every
    array passes. *)
Theorem toMatchMCPError_passes_iff (received : Matchers.JsValue)
  (expected : Matchers.ExpectedError) :
  Matchers.toMatchMCPError received expected = Matchers.Pass <->
  Matchers.object_like received /\
  (forall code, Matchers.expected_code expected = Some code ->
     Matchers.get received "code" = Matchers.JsNumber code) /\
  (forall message, Matchers.expected_message expected = Some (Matchers.exactly message) ->
     Matchers.get received "message" = Matchers.JsString message) /\
  (forall test, Matchers.expected_message expected = Some (Matchers.matching test) ->
     test (if Matchers.truthy (Matchers.get received "message")
           then Matchers.get received "message" else Matchers.JsString "") = true).
Proof.
  unfold Matchers.toMatchMCPError. cbv zeta.
  destruct expected as [code message]. cbn.
  destruct (Matchers.not_an_object_value received) eqn:Hobj.
  { split; [done|]. intros [Hlike%not_an_object_value_false _]. congruence. }
  apply not_an_object_value_false in Hobj.
  destruct code as [code|].
  - destruct (Matchers.strict_eq (Matchers.get received "code") (Matchers.JsNumber code))
      eqn:Hcode; cbn.
    + apply strict_eq_number in Hcode.
      destruct message as [[message|test]|].
      * destruct (Matchers.strict_eq _ (Matchers.JsString message)) eqn:Hm; cbn.
        -- apply strict_eq_string in Hm. split; [|done]. intros _.
           repeat split; try done; congruence.
        -- split; [done|]. intros (_ & _ & Hmsg & _).
           specialize (Hmsg message eq_refl). apply strict_eq_string in Hmsg. congruence.
      * destruct (test _) eqn:Ht; cbn.
        -- split; [|done]. intros _. repeat split; try done; congruence.
        -- split; [done|]. intros (_ & _ & _ & Htest).
           specialize (Htest test eq_refl). congruence.
      * split; [|done]. intros _. repeat split; try done; congruence.
    + split; [done|]. intros (_ & Hc & _). specialize (Hc code eq_refl).
      apply strict_eq_number in Hc. congruence.
  - destruct message as [[message|test]|].
    + destruct (Matchers.strict_eq _ (Matchers.JsString message)) eqn:Hm; cbn.
      * apply strict_eq_string in Hm. split; [|done]. intros _.
        repeat split; try done; congruence.
      * split; [done|]. intros (_ & _ & Hmsg & _).
        specialize (Hmsg message eq_refl). apply strict_eq_string in Hmsg. congruence.
    + destruct (test _) eqn:Ht; cbn.
      * split; [|done]. intros _. repeat split; try done; congruence.
      * split; [done|]. intros (_ & _ & _ & Htest).
        specialize (Htest test eq_refl). congruence.
    + split; [|done]. intros _. repeat split; done.
Qed.

(** X25. A thrown value matches an expected code together with an expected
    message exactly when it is an error of the protocol with that code and
    that message; an [Error] thrown by the client itself has no code and
    matches no expected code. *)
Theorem thrown_matches_code_and_message (e : Thrown) (code : Z) (message : string) :
  Matchers.toMatchMCPError (Matchers.of_thrown e)
    {| Matchers.expected_code := Some code;
       Matchers.expected_message := Some (Matchers.exactly message) |}
  = Matchers.Pass <->
  exists data, e = McpError code message data.
Proof.
  destruct e as [msg|code' msg data]; unfold Matchers.toMatchMCPError; cbn.
  - split; [done|]. by intros [? [=]].
  - rewrite lookup_insert_eq. cbn.
    destruct (Z.eqb_spec code' code) as [->|Hcode]; cbn.
    + rewrite lookup_insert_ne, lookup_insert_eq by done. cbn.
      destruct (String.eqb_spec msg message) as [->|Hmsg]; cbn.
      * split; [eauto | done].
      * split; [done|]. intros [? [= ?]]. congruence.
    + split; [done|]. intros [? [= ?]]. congruence.
Qed.

(** X26. [toHaveMCPProtocolVersion] passes exactly on an object whose
    [protocolVersion] is the expected string. *)
Theorem toHaveMCPProtocolVersion_passes_iff (received : Matchers.JsValue) (version : string) :
  Matchers.toHaveMCPProtocolVersion received version = Matchers.Pass <->
  exists fields,
    received = Matchers.JsObject fields /\
    fields !! "protocolVersion" = Some (Matchers.JsString version).
Proof.
  unfold Matchers.toHaveMCPProtocolVersion. cbv zeta. split.
  - destruct (Matchers.not_an_object_value received); [done|].
    destruct (negb _) eqn:Heq; [done|]. intros _. negb_cases.
    by apply strict_eq_string, get_defined in Heq.
  - intros (fields & -> & Hversion). cbn. rewrite Hversion. cbn.
    by rewrite String.eqb_refl.
Qed.

(** * The mock server's tools under the tool matcher *)

Lemma built_entry_registered (config : Mock.MockServerConfig)
  (tools : list Mock.Tool.t) (resources : list Mock.Resource.t) (entry : Mock.ListedTool) :
  entry ∈ Mock.getTools (Mock.built config tools resources) ->
  exists tool,
    tool ∈ Mock.all_tools config tools /\
    Mock.listed_name entry = Mock.Tool.name tool /\
    Mock.listed_description entry = Mock.Tool.description tool /\
    Mock.listed_inputSchema entry = Mock.Tool.inputSchema tool.
Proof.
  intros Hentry. unfold Mock.getTools in Hentry. rewrite built_tools in Hentry.
  apply list_elem_of_fmap in Hentry as (tool & -> & Htool).
  apply list_elem_of_fmap in Htool as ([key tool'] & -> & Hin). cbn.
  exists tool'. split; [|done].
  pose proof (write_all_keys_NoDup Mock.Tool.name [] (Mock.all_tools config tools)
                (NoDup_nil_2)) as Hnodup.
  pose proof (map_get_elem _ _ _ Hnodup Hin) as Hget.
  rewrite write_all_get in Hget. cbn in Hget.
  destruct (last _) as [found|] eqn:Hlast; [|done]. injection Hget as ->.
  apply last_Some in Hlast as [front Hfront].
  assert (tool' ∈ filter (fun tool => Mock.Tool.name tool = key) (Mock.all_tools config tools))
    as Hfound by (rewrite Hfront; apply elem_of_app; right; by apply list_elem_of_singleton).
  by apply list_elem_of_filter in Hfound as [_ ?].
Qed.

(** What the tool matcher says of an element of [getTools]. *)
Lemma listed_tool_valid (entry : Mock.ListedTool) :
  Matchers.toBeValidMCPTool (Matchers.of_listed_tool entry) = Matchers.Pass <->
  ~ Matchers.blank (Mock.listed_name entry) /\
  is_Some (Mock.listed_inputSchema entry).
Proof.
  rewrite toBeValidMCPTool_shape. unfold Matchers.of_listed_tool. split.
  - intros (fields & name & schema & [= <-] & Hname & Hfilled & Hschema & _).
    rewrite lookup_insert_eq in Hname. injection Hname as <-.
    split; [done|].
    rewrite lookup_insert_ne, lookup_insert_ne, lookup_singleton_eq in Hschema by done.
    by destruct (Mock.listed_inputSchema entry).
  - intros [Hfilled [schema Hschema]]. rewrite Hschema.
    eexists _, _, _. split; [reflexivity|].
    rewrite lookup_insert_eq. split; [reflexivity|]. split; [exact Hfilled|].
    rewrite lookup_insert_ne, lookup_insert_ne, lookup_singleton_eq by done.
    split; [reflexivity|]. unfold Matchers.of_schema. apply lookup_insert_eq.
Qed.

(** X27. On a mock server all of whose tools were made by [mockTool], an
    element of [getTools] passes [toBeValidMCPTool] exactly when its name
    is not made of white space only: [mockTool] always supplies a
    schema of type ['object']. *)
Theorem mock_tools_are_valid (config : Mock.MockServerConfig)
  (tools : list Mock.Tool.t) (resources : list Mock.Resource.t) (entry : Mock.ListedTool) :
  Forall (fun tool => exists name handler options, tool = Mock.mockTool name handler options)
    (Mock.all_tools config tools) ->
  entry ∈ Mock.getTools (Mock.built config tools resources) ->
  Matchers.toBeValidMCPTool (Matchers.of_listed_tool entry) = Matchers.Pass <->
  ~ Matchers.blank (Mock.listed_name entry).
Proof.
  intros Hmade Hentry.
  apply built_entry_registered in Hentry as (tool & Htool & _ & _ & Hschema).
  rewrite Forall_forall in Hmade.
  destruct (Hmade tool Htool) as (name & handler & options & ->).
  rewrite listed_tool_valid, Hschema. cbn. split; [tauto|]. eauto.
Qed.

(** X28. A resource descriptor, as [getResources] and [listResources]
    return them, passes [toBeValidMCPResource] exactly when its uri and its
    name are each not made of white space only; its description
    and mime type play no part. *)
Theorem resource_descriptor_valid (r : MCPResource) :
  Matchers.toBeValidMCPResource (Matchers.of_resource r) = Matchers.Pass <->
  ~ Matchers.blank (resource_uri r) /\
  ~ Matchers.blank (resource_name r).
Proof.
  rewrite toBeValidMCPResource_shape. unfold Matchers.of_resource. split.
  - intros (fields & uri & name & [= <-] & Huri & Hu & Hname & Hn).
    rewrite lookup_insert_eq in Huri. injection Huri as <-.
    rewrite lookup_insert_ne, lookup_insert_eq in Hname by done. injection Hname as <-.
    by split.
  - intros [Hu Hn]. eexists _, _, _. split; [reflexivity|].
    rewrite lookup_insert_eq. split; [reflexivity|]. split; [exact Hu|].
    rewrite lookup_insert_ne, lookup_insert_eq by done. by split.
Qed.

Lemma mock_tools_are_valid_witness :
  let entry := {| Mock.listed_name := "get-weather"; Mock.listed_description := None;
                  Mock.listed_inputSchema := Some Mock.empty_schema |} in
  Forall (fun tool => exists name handler options, tool = Mock.mockTool name handler options)
    (Mock.all_tools Mock.weather_config [Mock.mockTool "get-weather" Mock.rainy None]) /\
  entry ∈ Mock.getTools
            (Mock.built Mock.weather_config [Mock.mockTool "get-weather" Mock.rainy None] []) /\
  Matchers.toBeValidMCPTool (Matchers.of_listed_tool entry) = Matchers.Pass.
Proof.
  cbv zeta.
  assert (Forall (fun tool => exists name handler options,
                    tool = Mock.mockTool name handler options)
            (Mock.all_tools Mock.weather_config
               [Mock.mockTool "get-weather" Mock.rainy None])) as Hmade
    by (repeat constructor; eexists _, _, _; reflexivity).
  assert ({| Mock.listed_name := "get-weather"; Mock.listed_description := None;
             Mock.listed_inputSchema := Some Mock.empty_schema |}
          ∈ Mock.getTools
              (Mock.built Mock.weather_config
                 [Mock.mockTool "get-weather" Mock.rainy None] [])) as Hentry
    by (vm_compute; constructor).
  split; [exact Hmade|]. split; [exact Hentry|].
  apply (mock_tools_are_valid _ _ _ _ Hmade Hentry).
  intros Hblank%trim_empty. vm_compute in Hblank. discriminate Hblank.
Defined.

(** ** Samples *)

(** A mock server on which "get-weather" is registered twice and a tool
    without schema is added by hand. *)
Example mock_server_sample :
  let self := Mock.built Mock.weather_config
                [Mock.mockTool "get-weather" Mock.rainy None; Mock.forecast] [] in
  Mock.listed_name <$> Mock.getTools self = ["get-weather"; "  "; "forecast"] /\
  Mock.callTool "get-weather" [] self = Mock.rainy [] /\
  Mock.callTool "weather" [] self = inl (Error "Tool 'weather' not found") /\
  Mock.readResource "file:///README.md" self
    = inl (Error "Resource 'file:///README.md' not found") /\
  (Matchers.toBeValidMCPTool ∘ Matchers.of_listed_tool) <$> Mock.getTools self
    = [Matchers.Pass; Matchers.Fail Matchers.name_not_filled;
       Matchers.Fail Matchers.inputSchema_not_an_object].
Proof. vm_compute. repeat split. Qed.

(** The matchers on a few values. *)
Example matchers_sample :
  let text_item := Matchers.JsObject {[ "type" := Matchers.JsString "text" ]} in
  Matchers.toMatchMCPToolResponse
    (Matchers.JsObject {[ "content" := Matchers.JsArray [text_item; Matchers.JsNull] ]}) None
    = Matchers.ThrowsTypeError /\
  Matchers.toMatchMCPToolResponse
    (Matchers.JsObject {[ "content" := Matchers.JsArray [Matchers.JsNumber 1; Matchers.JsNull] ]})
    None
    = Matchers.Returns (Matchers.Fail Matchers.content_item_type_invalid) /\
  Matchers.toMatchMCPToolResponse
    (Matchers.JsObject {[ "content" := Matchers.JsArray [text_item] ]})
    (Some {| Matchers.expected_isError := Some false; Matchers.expected_content := None |})
    = Matchers.Returns (Matchers.Fail Matchers.isError_differs) /\
  Matchers.toMatchMCPError (Matchers.JsArray [])
    {| Matchers.expected_code := None; Matchers.expected_message := None |}
    = Matchers.Pass /\
  Matchers.toMatchMCPError (Matchers.of_thrown NotConnectedError)
    {| Matchers.expected_code := Some (-32602)%Z; Matchers.expected_message := None |}
    = Matchers.Fail Matchers.code_differs /\
  Matchers.trim (String (Ascii.ascii_of_nat 9) " get weather  ") = "get weather" /\
  Matchers.trim (Matchers.em_space +:+ " get weather " +:+ Matchers.em_space)
    = "get weather" /\
  Matchers.toBeValidMCPTool
    (Matchers.of_listed_tool
       {| Mock.listed_name := Matchers.em_space; Mock.listed_description := None;
          Mock.listed_inputSchema := Some Mock.empty_schema |})
    = Matchers.Fail Matchers.name_not_filled.
Proof. vm_compute. repeat split. Qed.
